(** * Wilfred image manifests: loading, validation and queries

    A shallow embedding of the two [Images] classes of the repository,

    - [src/wilfred/api/images.py]  (module [ApiImages] below): the
      exception-raising variant, [API_VERSION = 2];
    - [src/wilfred/images.py]      (module [WilfredImages] below): the
      variant that reads in its constructor and exits the process on
      failure, [API_VERSION = 0];

    together with the properties the specification states about them.

    Python values produced by [json.loads] are an inductive type; a Python
    exception is a value of [exn]; a method of the class is a function from
    the object (and the file system it reads) to an outcome and the object
    after the call. *)

From Stdlib Require Import List String Ascii ZArith Bool Lia.
From Stdlib Require Import SpecFloat.
Import ListNotations.

#[local] Set Warnings "-register-all".

Local Open Scope string_scope.
Local Open Scope Z_scope.

(** ** Python values *)

(** What [json.loads] returns: [None], [bool], [int], [float], [str],
    [list] and [dict] with string keys.  A [dict] is its list of items in
    insertion order; [json.loads] keeps one item per key.  A [str] is a
    string of Rocq characters, which are the code points up to U+00FF. *)
Inductive json : Type :=
| JNull
| JBool (b : bool)
| JInt (n : Z)
| JFloat (f : spec_float)
| JStr (s : string)
| JList (l : list json)
| JDict (items : list (string * json)).

(** A subscript: [v["key"]] or [v[i]]. *)
Inductive index : Type :=
| IStr (k : string)
| IInt (i : nat).

(** The argument of [_exception]: a key, or the f-string
    [f"{filename} environment key {key}"], kept with the value that is
    formatted into it. *)
Inductive keyname : Type :=
| Key (k : string)
| EnvKey (filename : json) (k : string).

Inductive complaint : Type :=
| MissingKey (k : keyname)
| UidNotLowercase.

(** Exceptions.  The first five are the classes of [api/images.py]; their
    messages are f-strings, kept here by their parts.  The others are
    built-in or library exceptions that the code lets through, and
    [SystemExit], raised by [error(..., exit_code=1)]. *)
Inductive exn : Type :=
| ImagesNotPresent (msg : string)
| ImagesNotRead (msg : string)
| ReadError (file : string) (wording : string) (cause : exn)
| ParseError (file : string) (what : complaint)
| ImageAPIMismatch (file : string) (declared : json) (supported : Z)
| KeyError (k : index)
| TypeError
| AttributeError
| IndexError
| JSONDecodeError (text : string)
| OSError
| ConnectionError
| BadZipFile
| UnboundLocalError
| SystemExit (code : Z).

(** [str(e)] of a [ParseError] raised for a plain key or for the uid. *)
Definition ParseError_message (file : string) (what : complaint) : option string :=
  match what with
  | MissingKey (Key k) => Some ("image " ++ file ++ " is missing key " ++ k)
  | MissingKey (EnvKey (JStr fn) k) =>
      Some ("image " ++ file ++ " is missing key " ++ fn ++ " environment key " ++ k)
  | MissingKey (EnvKey _ _) => None
  | UidNotLowercase => Some ("image " ++ file ++ " uid must be lowercase")
  end.

(** ** Results and the error monad *)

Inductive result (A : Type) : Type :=
| Ok (a : A)
| Raise (e : exn).
Arguments Ok {A} a.
Arguments Raise {A} e.

Definition bind {A B : Type} (r : result A) (k : A -> result B) : result B :=
  match r with
  | Ok a => k a
  | Raise e => Raise e
  end.

Notation "x <- c ;; k" := (bind c (fun x => k))
  (at level 61, c at next level, right associativity).
Notation "c ;;; k" := (bind c (fun _ => k))
  (at level 61, right associativity).

(** [try: body  except Exception: handler].  [SystemExit] is not an
    [Exception] and passes through. *)
Definition is_Exception (e : exn) : bool :=
  match e with
  | SystemExit _ => false
  | _ => true
  end.

Definition try_except {A : Type} (body : result A) (handler : exn -> result A) : result A :=
  match body with
  | Ok a => Ok a
  | Raise e => if is_Exception e then handler e else Raise e
  end.

(** ** Python primitives *)

Fixpoint lookup (k : string) (items : list (string * json)) : option json :=
  match items with
  | [] => None
  | (k', v) :: rest => if String.eqb k k' then Some v else lookup k rest
  end.

(** [v[i]]: a [dict] is indexed by its keys (a JSON key is never an [int]),
    a [list] and a [str] by position, nothing else is subscriptable. *)
Definition subscript (v : json) (i : index) : result json :=
  match v, i with
  | JDict items, IStr k =>
      match lookup k items with
      | Some x => Ok x
      | None => Raise (KeyError i)
      end
  | JDict _, IInt _ => Raise (KeyError i)
  | JList l, IInt n =>
      match nth_error l n with
      | Some x => Ok x
      | None => Raise IndexError
      end
  | JList _, IStr _ => Raise TypeError
  | JStr s, IInt n =>
      match String.get n s with
      | Some c => Ok (JStr (String c EmptyString))
      | None => Raise IndexError
      end
  | JStr _, IStr _ => Raise TypeError
  | _, _ => Raise TypeError
  end.

(** [v["key"]] *)
Definition item (v : json) (k : string) : result json := subscript v (IStr k).

(** [len(v)] *)
Definition len (v : json) : result nat :=
  match v with
  | JDict items => Ok (List.length items)
  | JList l => Ok (List.length l)
  | JStr s => Ok (String.length s)
  | _ => Raise TypeError
  end.

(** [str.lower].  Python lowercases by the Unicode tables; what the code
    does with the result does not depend on them, so the function is a
    parameter of the definitions that call it and the properties hold for
    every such function. *)
Class StrLower : Type := lower : string -> string.

(** Python's [str.lower] on the code points up to U+00FF: A to Z, and the
    letters U+00C0 to U+00DE except the sign U+00D7, move up by 32; every
    other character stays.  This is the function the examples run with.
    (A character of a string literal is one byte, so an example with a
    letter beyond ASCII spells it by its code point.) *)
Definition lower_code_point (c : ascii) : ascii :=
  let n := nat_of_ascii c in
  if ((65 <=? n)%nat && (n <=? 90)%nat)
     || ((192 <=? n)%nat && (n <=? 222)%nat && negb (n =? 215)%nat)
  then ascii_of_nat (n + 32) else c.

Fixpoint lower_code_points (s : string) : string :=
  match s with
  | EmptyString => EmptyString
  | String c rest => String (lower_code_point c) (lower_code_points rest)
  end.

#[export] Instance python_lower : StrLower := lower_code_points.

(** [s.endswith(suffix)] *)
Definition endswith (s suffix : string) : bool :=
  let n := String.length s in
  let m := String.length suffix in
  (m <=? n)%nat && String.eqb (substring (n - m) m s) suffix.

(** [float == int], exact as in Python: the float's value is compared with
    the integer, no rounding. *)
Definition float_eq_int (f : spec_float) (n : Z) : bool :=
  match f with
  | S754_zero _ => n =? 0
  | S754_infinity _ => false
  | S754_nan => false
  | S754_finite s m e =>
      let v := if s then Z.neg m else Z.pos m in
      if 0 <=? e then n =? v * 2 ^ e
      else (v mod 2 ^ (- e) =? 0) && (n =? v / 2 ^ (- e))
  end.

(** [v == n] for an [int] n: numbers compare by value ([True] is 1 and
    [False] is 0), a value of another type is never equal to a number. *)
Definition eq_int (v : json) (n : Z) : bool :=
  match v with
  | JInt m => m =? n
  | JBool b => (if b then 1 else 0) =? n
  | JFloat f => float_eq_int f n
  | _ => false
  end.

(** [v == s] for a [str] s. *)
Definition eq_str (v : json) (s : string) : bool :=
  match v with
  | JStr t => String.eqb t s
  | _ => false
  end.

(** [del d[key]] inside [try: ... except Exception: pass]: the key goes if
    [d] is a [dict] that has it, anything else is left as it is. *)
Definition del_quiet (key : string) (d : json) : json :=
  match d with
  | JDict items => JDict (filter (fun kv => negb (String.eqb key (fst kv))) items)
  | _ => d
  end.

(** [for a in l: body(a)], left at the first exception. *)
Fixpoint for_each {A : Type} (l : list A) (body : A -> result unit) : result unit :=
  match l with
  | [] => Ok tt
  | a :: rest => body a ;;; for_each rest body
  end.

(** ** Files *)

(** What reading one file gives: [open] fails, or [f.read()] /
    [json.loads] fails with some exception, or a value is parsed. *)
Inductive file_content : Type :=
| Unreadable
| NotJson (cause : exn)
| Json (j : json).

Record entry : Type := mkEntry {
  fname : string;
  fcontent : file_content
}.

(** The part of the disk the class touches.  [image_dir] is walked top
    down: [before_default] are the files met before the [default] subtree,
    [after_default] those met after it; [default] is [None] when
    [image_dir/default] is not a directory.  [img_zip] and [temp_images]
    live in [config_dir], outside the walk; [temp_images] is [None] when the
    scratch directory is absent and otherwise holds the subtree
    [images-master/images] if there is one. *)
Record FS : Type := mkFS {
  before_default : list entry;
  default : option (list entry);
  after_default : list entry;
  img_zip : bool;
  temp_images : option (option (list entry))
}.

(** [for root, dirs, files in walk(image_dir): for file in files] *)
Definition walk (fs : FS) : list entry :=
  before_default fs ++ match default fs with Some d => d | None => [] end
    ++ after_default fs.

(** [isdir(f"{image_dir}/default")] *)
Definition isdir_default (fs : FS) : bool :=
  match default fs with
  | Some _ => true
  | None => false
  end.

(** The object: its one attribute that the claims are about. *)
Record Images : Type := mkImages {
  images : list json
}.

Definition append (self : Images) (img : json) : Images :=
  {| images := images self ++ [img] |}.

(** ** The bundle download

    [download] of [api/images.py] and [download_default] of [images.py]
    are the same statements.  What the network and the disk answer during
    one call is a [Remote]:
    - [rmtree_default]: what [rmtree(default, ignore_errors=True)] leaves of
      an existing [default] subtree, [None] when it is removed;
    - [open_zip], [write_zip]: whether [open(img.zip, "wb")] and [f.write]
      succeed; [response]: whether [get] returns;
    - [archive]: what [ZipFile(...).extractall(temp_images)] does;
    - [move_images], [remove_zip], [rmtree_temp]: whether [move], [remove]
      and the last [rmtree] succeed. *)
Inductive extraction : Type :=
| NotAZip
| ExtractFails (remains : option (list entry))
| Extracted (imgs : option (list entry)).

Record Remote : Type := mkRemote {
  rmtree_default : option (list entry);
  open_zip : bool;
  response : bool;
  write_zip : bool;
  archive : extraction;
  move_images : bool;
  remove_zip : bool;
  rmtree_temp : bool
}.

Definition set_default (d : option (list entry)) (fs : FS) : FS :=
  {| before_default := before_default fs; default := d;
     after_default := after_default fs; img_zip := img_zip fs;
     temp_images := temp_images fs |}.

Definition set_img_zip (b : bool) (fs : FS) : FS :=
  {| before_default := before_default fs; default := default fs;
     after_default := after_default fs; img_zip := b;
     temp_images := temp_images fs |}.

Definition set_temp_images (t : option (option (list entry))) (fs : FS) : FS :=
  {| before_default := before_default fs; default := default fs;
     after_default := after_default fs; img_zip := img_zip fs;
     temp_images := t |}.

(** [shutil.move(src, dst)]: [dst] becomes [src] when [dst] does not exist,
    and [src] is moved inside [dst] when [dst] is a directory. *)
Definition moved_into (dst : option (list entry)) (src : list entry) : list entry :=
  match dst with
  | None => src
  | Some old => old ++ src
  end.

(** [rmtree(path, ignore_errors=True)]: no exception; an absent path stays
    absent, an existing one is removed or, when the removal fails, left
    with what [rmtree_default] says. *)
Definition rmtree_ignore_errors (r : Remote) (d : option (list entry))
  : option (list entry) :=
  match d with
  | Some _ => rmtree_default r
  | None => None
  end.

Definition download_steps (r : Remote) (fs : FS) : result unit * FS :=
  (* rmtree(f"{image_dir}/default", ignore_errors=True) *)
  let fs := set_default (rmtree_ignore_errors r (default fs)) fs in
  (* with open(f"{config_dir}/img.zip", "wb") as f *)
  if negb (open_zip r) then (Raise OSError, fs) else
  let fs := set_img_zip true fs in
  (* response = get(...) *)
  if negb (response r) then (Raise ConnectionError, fs) else
  (* f.write(response.content) *)
  if negb (write_zip r) then (Raise OSError, fs) else
  (* with ZipFile(...) as obj: obj.extractall(f"{config_dir}/temp_images") *)
  match archive r with
  | NotAZip => (Raise BadZipFile, fs)
  | ExtractFails remains => (Raise OSError, set_temp_images (Some remains) fs)
  | Extracted imgs =>
      let fs := set_temp_images (Some imgs) fs in
      (* move(temp_images/images-master/images, image_dir/default) *)
      match imgs with
      | None => (Raise OSError, fs)
      | Some src =>
          if negb (move_images r) then (Raise OSError, fs) else
          let fs := set_default (Some (moved_into (default fs) src)) fs in
          let fs := set_temp_images (Some None) fs in
          (* remove(f"{config_dir}/img.zip") *)
          if negb (remove_zip r) then (Raise OSError, fs) else
          let fs := set_img_zip false fs in
          (* rmtree(f"{config_dir}/temp_images") *)
          if negb (rmtree_temp r) then (Raise OSError, fs) else
          (Ok tt, set_temp_images None fs)
      end
  end.

(** The disk, what the network will answer to the n-th download, and the
    number of downloads started so far. *)
Record World : Type := mkWorld {
  disk : FS;
  net : nat -> Remote;
  fetches : nat
}.

(** ** [src/wilfred/api/images.py] *)

Module ApiImages.

Definition API_VERSION : Z := 2.

Definition top_level_keys : list string :=
  ["meta"; "uid"; "name"; "author"; "docker_image"; "command"; "user";
   "stop_command"; "default_image"; "variables"; "installation"; "config"].

Definition meta_keys : list string := ["api_version"].
Definition installation_keys : list string := ["docker_image"; "shell"; "script"].
Definition file_keys : list string := ["filename"; "parser"; "environment"; "action"].
Definition environment_keys : list string :=
  ["config_variable"; "environment_variable"; "value_format"].
Definition variable_keys : list string :=
  ["prompt"; "variable"; "install_only"; "default"; "hidden"].

(** [__init__]: an empty registry. *)
Definition __init__ : Images := {| images := [] |}.

(** [_exception(key)] of [_verify] *)
Definition _exception {A : Type} (file : string) (key : keyname) : result A :=
  Raise (ParseError file (MissingKey key)).

(** [try: <expr>  except Exception: return _exception(key)] *)
Definition probe (file : string) (expr : result json) (key : keyname) : result unit :=
  try_except (expr ;;; Ok tt) (fun _ => _exception file key).

(** [image["config"]["files"]] *)
Definition config_files (image : json) : result json :=
  c <- item image "config" ;; item c "files".

(** [image["config"]["files"][i]] *)
Definition config_file (image : json) (i : nat) : result json :=
  fs <- config_files image ;; subscript fs (IInt i).

(** [image["config"]["files"][i]["environment"]] *)
Definition file_environment (image : json) (i : nat) : result json :=
  f <- config_file image i ;; item f "environment".

(** [image["variables"][i]] *)
Definition variable (image : json) (i : nat) : result json :=
  vs <- item image "variables" ;; subscript vs (IInt i).

(** The lowercase test: [image["uid"] != image["uid"].lower()].  Only a
    [str] has [lower]; on any other value the call raises
    [AttributeError], outside every [try]. *)
Definition check_uid `{StrLower} (image : json) (file : string) : result unit :=
  uid <- item image "uid" ;;
  match uid with
  | JStr s =>
      if negb (String.eqb s (lower s))
      then Raise (ParseError file UidNotLowercase)
      else Ok tt
  | _ => Raise AttributeError
  end.

(** The body of [for i in range(len(image["config"]["files"]))] *)
Definition check_file (image : json) (file : string) (i : nat) : result unit :=
  for_each file_keys (fun key =>
    probe file (f <- config_file image i ;; item f key) (Key key)) ;;;
  env <- file_environment image i ;;
  n <- len env ;;
  for_each (seq 0 n) (fun x =>
    for_each environment_keys (fun key =>
      try_except
        (e <- file_environment image i ;; m <- subscript e (IInt x) ;;
         item m key ;;; Ok tt)
        (fun _ =>
           filename <- (f <- config_file image i ;; item f "filename") ;;
           _exception file (EnvKey filename key)))).

(** [_verify(image, file)].  The probe of [image["config"]["files"]] sits
    after the loop over [installation_keys] and reports the loop variable
    [key], which still holds the last key of that loop. *)
Definition _verify `{StrLower} (image : json) (file : string) : result bool :=
  for_each top_level_keys (fun key => probe file (item image key) (Key key)) ;;;
  check_uid image file ;;;
  for_each meta_keys (fun key =>
    probe file (m <- item image "meta" ;; item m key) (Key key)) ;;;
  for_each installation_keys (fun key =>
    probe file (m <- item image "installation" ;; item m key) (Key key)) ;;;
  let key := last installation_keys (last meta_keys "") in
  probe file (config_files image) (Key key) ;;;
  files <- config_files image ;;
  n <- len files ;;
  (if (0 <? n)%nat
   then for_each (seq 0 n) (check_file image file)
   else Ok tt) ;;;
  vars <- item image "variables" ;;
  k <- len vars ;;
  (if (0 <? k)%nat
   then for_each (seq 0 k) (fun i =>
          for_each variable_keys (fun key =>
            probe file (v <- variable image i ;; item v key) (Key key)))
   else Ok tt) ;;;
  Ok true.

(** [_check_if_read] *)
Definition _check_if_read (self : Images) : bool :=
  if (List.length (images self) =? 0)%nat then false else true.

(** [check_if_present] *)
Definition check_if_present (fs : FS) : bool :=
  if negb (isdir_default fs) then false else true.

(** The version test of [read_images]:
    [if _image["meta"]["api_version"] != API_VERSION: raise ImageAPIMismatch(...)],
    with [ImageAPIMismatch] raised again as it is and any other exception
    turned into [ReadError]. *)
Definition check_version (_image : json) (file : string) : result unit :=
  match
    (m <- item _image "meta" ;; v <- item m "api_version" ;;
     if negb (eq_int v API_VERSION)
     then Raise (ImageAPIMismatch file v API_VERSION)
     else Ok tt)
  with
  | Ok _ => Ok tt
  | Raise (ImageAPIMismatch f v s) => Raise (ImageAPIMismatch f v s)
  | Raise e =>
      if is_Exception e then Raise (ReadError file " with err " e) else Raise e
  end.

(** What the loop body of [read_images] does with one [.json] file, up to
    the value it appends. *)
Definition read_file `{StrLower} (f : entry) : result json :=
  match fcontent f with
  | Unreadable => Raise OSError
  | NotJson cause =>
      try_except (Raise cause)
        (fun e => Raise (ReadError (fname f) " failed with exception " e))
  | Json _image =>
      check_version _image (fname f) ;;;
      _verify _image (fname f) ;;;
      Ok _image
  end.

(** The two nested [for] loops of [read_images] over the walk. *)
Fixpoint read_loop `{StrLower} (files : list entry) (self : Images) : result bool * Images :=
  match files with
  | [] => (Ok true, self)
  | f :: rest =>
      if endswith (fname f) ".json"
      then match read_file f with
           | Ok _image => read_loop rest (append self _image)
           | Raise e => (Raise e, self)
           end
      else read_loop rest self
  end.

(** [read_images] *)
Definition read_images `{StrLower} (fs : FS) (self : Images) : result bool * Images :=
  if negb (check_if_present fs)
  then (Raise (ImagesNotPresent "Default images not present"), self)
  else read_loop (walk fs) {| images := [] |}.

(** [next(filter(lambda img: img["uid"] == uid, l), None)] *)
Fixpoint first_with_uid (uid : string) (l : list json) : result (option json) :=
  match l with
  | [] => Ok None
  | img :: rest =>
      u <- item img "uid" ;;
      if eq_str u uid then Ok (Some img) else first_with_uid uid rest
  end.

(** [download] *)
Definition download (w : World) : result unit * World :=
  let (r, fs) := download_steps (net w (fetches w)) (disk w) in
  (r, {| disk := fs; net := net w; fetches := S (fetches w) |}).

(** [get_image(uid)] *)
Definition get_image (self : Images) (uid : string) : result (option json) * Images :=
  if negb (_check_if_read self)
  then (Raise (ImagesNotRead "Read images before trying to get image"), self)
  else (first_with_uid uid (images self), self).

Definition pretty_keys : list string :=
  ["meta"; "installation"; "docker_image"; "command"; "stop_command";
   "variables"; "user"; "config"].

(** The inner loop of [pretty]: [for key in (...): try: del d[key] ...] *)
Definition strip (keys : list string) (d : json) : json :=
  fold_left (fun d key => del_quiet key d) keys d.

(** [deepcopy]: the copy has the same value and shares nothing with the
    original, so what is done to it is not done to [self.images]. *)
Definition deepcopy (l : list json) : list json := l.

(** [pretty]: the result is the list of rows handed to [tabulate]. *)
Definition pretty (self : Images) : result (list json) * Images :=
  if negb (_check_if_read self)
  then (Raise (ImagesNotRead "Read images before trying to get images"), self)
  else
    let _images := deepcopy (images self) in
    let _images := map (strip pretty_keys) _images in
    (Ok _images, self).

End ApiImages.

(** ** [src/wilfred/images.py] *)

Module WilfredImages.

Definition API_VERSION : Z := 0.

(** Modelled from the spec: [wilfred.message_handler] is not among the
    sources.  The design notes call this variant exit-on-failure:
    [error(msg, exit_code=1)] prints and ends the process with that code;
    [error(msg)] and [warning(msg)] print and return. Printing is not
    part of the model. *)
Definition error (exit_code : option Z) : result unit :=
  match exit_code with
  | Some code => Raise (SystemExit code)
  | None => Ok tt
  end.

Definition warning : result unit := Ok tt.

Definition top_level_keys : list string :=
  ["meta"; "uid"; "name"; "author"; "docker_image"; "command"; "user";
   "stop_command"; "default_image"; "variables"; "installation"].

Definition meta_keys : list string := ["api_version"].
Definition installation_keys : list string := ["docker_image"; "shell"; "script"].

(** [_exception(key)] of [_verify] *)
Definition _exception (file : string) (key : string) : result unit :=
  error (Some 1).

(** [try: <expr>  except Exception: _exception(key)] *)
Definition probe (file : string) (expr : result json) (key : string) : result unit :=
  try_except (expr ;;; Ok tt) (fun _ => _exception file key).

(** [_verify(image, file)] *)
Definition _verify (image : json) (file : string) : result unit :=
  for_each top_level_keys (fun key => probe file (item image key) key) ;;;
  for_each meta_keys (fun key =>
    probe file (m <- item image "meta" ;; item m key) key) ;;;
  for_each installation_keys (fun key =>
    probe file (m <- item image "installation" ;; item m key) key).

(** The version test of [_read_images]; [Ok false] stands for the
    [return False] of either branch. *)
Definition check_version (_image : json) (silent : bool) : result bool :=
  try_except
    (m <- item _image "meta" ;; v <- item m "api_version" ;;
     if negb (eq_int v API_VERSION)
     then (if negb silent then warning else Ok tt) ;;; Ok false
     else Ok true)
    (fun _ => (if negb silent then error None else Ok tt) ;;; Ok false).

(** One [.json] file in the loop of [_read_images]: [Ok None] is
    [return False], [Ok (Some image)] the value that is appended. *)
Definition read_file (silent : bool) (f : entry) : result (option json) :=
  match fcontent f with
  | Unreadable => Raise OSError
  | NotJson cause =>
      try_except (Raise cause) (fun _ => error (Some 1) ;;; Raise UnboundLocalError)
  | Json _image =>
      go_on <- check_version _image silent ;;
      if go_on
      then _verify _image (fname f) ;;; Ok (Some _image)
      else Ok None
  end.

Fixpoint read_loop (silent : bool) (files : list entry) (self : Images)
  : result bool * Images :=
  match files with
  | [] => (Ok true, self)
  | f :: rest =>
      if endswith (fname f) ".json"
      then match read_file silent f with
           | Ok (Some _image) => read_loop silent rest (append self _image)
           | Ok None => (Ok false, self)
           | Raise e => (Raise e, self)
           end
      else read_loop silent rest self
  end.

(** [_read_images(silent)] *)
Definition _read_images (silent : bool) (fs : FS) (self : Images)
  : result bool * Images :=
  read_loop silent (walk fs) {| images := [] |}.

(** [download_default(read)] *)
Definition download_default (read : bool) (w : World) (self : Images)
  : result unit * World * Images :=
  let (r, fs) := download_steps (net w (fetches w)) (disk w) in
  let w := {| disk := fs; net := net w; fetches := S (fetches w) |} in
  match r with
  | Raise e => (Raise e, w, self)
  | Ok _ =>
      if read
      then let (r, self) := _read_images false (disk w) self in (r ;;; Ok tt, w, self)
      else (Ok tt, w, self)
  end.

(** [__init__] *)
Definition __init__ (w : World) : result unit * World * Images :=
  let self := {| images := [] |} in
  let '(r, w, self) :=
    if negb (isdir_default (disk w))
    then let _ := warning in download_default false w self
    else (Ok tt, w, self) in
  match r with
  | Raise e => (Raise e, w, self)
  | Ok _ =>
      let (r, self) := _read_images false (disk w) self in
      match r with
      | Raise e => (Raise e, w, self)
      | Ok true => (Ok tt, w, self)
      | Ok false =>
          let '(r, w, self) := download_default false w self in
          match r with
          | Raise e => (Raise e, w, self)
          | Ok _ =>
              let (r, self) := _read_images true (disk w) self in
              match r with
              | Raise e => (Raise e, w, self)
              | Ok true => (Ok tt, w, self)
              | Ok false => (error (Some 1), w, self)
              end
          end
      end
  end.

Definition pretty_keys : list string :=
  ["meta"; "installation"; "docker_image"; "command"; "stop_command";
   "variables"; "user"].

Definition strip (keys : list string) (d : json) : json :=
  fold_left (fun d key => del_quiet key d) keys d.

(** [pretty]: [_images = self.images] binds the list of the object itself,
    so each [del d[key]] is done to the registered manifest; the rows
    handed to [tabulate] and the registry afterwards are the same list. *)
Definition pretty (self : Images) : result (list json) * Images :=
  let _images := map (strip pretty_keys) (images self) in
  (Ok _images, {| images := _images |}).

(** [list(filter(lambda img: img["uid"] == uid, l))] *)
Fixpoint with_uid (uid : string) (l : list json) : result (list json) :=
  match l with
  | [] => Ok []
  | img :: rest =>
      u <- item img "uid" ;;
      found <- with_uid uid rest ;;
      Ok (if eq_str u uid then img :: found else found)
  end.

(** [get_image(uid)] *)
Definition get_image (fs : FS) (self : Images) (uid : string)
  : result (option json) * Images :=
  let (r, self) := _read_images false fs self in
  match r with
  | Raise e => (Raise e, self)
  | Ok _ =>
      (image <- with_uid uid (images self) ;;
       Ok (match image with x :: _ => Some x | [] => None end), self)
  end.

End WilfredImages.

(** ** What the properties are about *)

(** A manifest as the specification wants it in the registry: every
    required top-level key is there, [meta.api_version] is equal (Python's
    [==]) to the supported version, and [uid] is a string equal to its own
    lowercase form. *)
Definition valid_manifest `{StrLower} (m : json) : Prop :=
  Forall (fun key => exists v, item m key = Ok v) ApiImages.top_level_keys /\
  (exists v, (meta <- item m "meta" ;; item meta "api_version") = Ok v /\
             eq_int v ApiImages.API_VERSION = true) /\
  (exists s, item m "uid" = Ok (JStr s) /\ s = lower s).

(** The objects that calls of the methods of [api/images.py] can produce,
    on any disk and with any argument. *)
Inductive reachable `{StrLower} : Images -> Prop :=
| reach_init : reachable ApiImages.__init__
| reach_read_images fs self :
    reachable self -> reachable (snd (ApiImages.read_images fs self))
| reach_get_image self uid :
    reachable self -> reachable (snd (ApiImages.get_image self uid))
| reach_pretty self :
    reachable self -> reachable (snd (ApiImages.pretty self)).

(** *** Sample data *)

Definition sample_variable : json :=
  JDict [("prompt", JStr "Which version?"); ("variable", JStr "MINECRAFT_VERSION");
         ("install_only", JBool true); ("default", JStr "latest");
         ("hidden", JBool false)].

Definition sample_mapping : json :=
  JDict [("config_variable", JStr "server-port");
         ("environment_variable", JStr "SERVER_PORT");
         ("value_format", JNull)].

Definition sample_config_file : json :=
  JDict [("filename", JStr "server.properties"); ("parser", JStr "properties");
         ("environment", JList [sample_mapping]); ("action", JStr "")].

Definition sample_items (uid : string) (version : Z) (config : json)
  : list (string * json) :=
  [("meta", JDict [("api_version", JInt version)]);
   ("uid", JStr uid); ("name", JStr "Vanilla Minecraft");
   ("author", JStr "info@wilfredproject.org");
   ("docker_image", JStr "wilfreddev/java:latest");
   ("command", JStr "java -jar server.jar"); ("user", JStr "container");
   ("stop_command", JStr "stop"); ("default_image", JBool true);
   ("variables", JList [sample_variable]);
   ("installation",
    JDict [("docker_image", JStr "wilfreddev/alpine:latest");
           ("shell", JStr "/bin/ash"); ("script", JStr "install.sh")]);
   ("config", config)].

Definition sample_manifest (uid : string) (version : Z) : json :=
  JDict (sample_items uid version (JDict [("files", JList [sample_config_file])])).

Definition disk_with (files : list entry) : FS :=
  {| before_default := []; default := Some files; after_default := [];
     img_zip := false; temp_images := None |}.

(** The [.json] files of a walk, in the order of the walk. *)
Definition json_files (files : list entry) : list entry :=
  filter (fun f => endswith (fname f) ".json") files.

(** [loads f j]: the loop body of [read_images] accepts the file [f] and
    appends [j]. *)
Definition loads `{StrLower} (f : entry) (j : json) : Prop := ApiImages.read_file f = Ok j.

(** [img["uid"] == x], the test of the [filter] in [get_image]. *)
Definition has_uid (x : string) (m : json) : bool :=
  match item m "uid" with
  | Ok u => eq_str u x
  | Raise _ => false
  end.

(** The uids of a registry, in order. *)
Definition uids (l : list json) : list (result json) :=
  map (fun m => item m "uid") l.

Definition vanilla : json := sample_manifest "default-vanilla-minecraft" 2.
Definition paper : json := sample_manifest "default-paper-minecraft" 2.

(** A manifest that has no [author]. *)
Definition no_author : json := del_quiet "author" vanilla.

(** A manifest whose [config] has no [files]. *)
Definition no_files : json :=
  JDict (sample_items "default-vanilla-minecraft" 2 (JDict [])).

(** A manifest written for another version that also has no [author]. *)
Definition old_no_author (version : Z) : json :=
  del_quiet "author" (sample_manifest "default-vanilla-minecraft" version).

Definition two_manifests : FS :=
  disk_with [mkEntry "vanilla.json" (Json vanilla); mkEntry "README.md" Unreadable;
             mkEntry "paper.json" (Json paper)].

Definition empty_default : FS := disk_with [].

Definition second_file_broken : FS :=
  disk_with [mkEntry "vanilla.json" (Json vanilla);
             mkEntry "broken.json" (Json no_author);
             mkEntry "paper.json" (Json paper)].

Definition same_uid_twice : FS :=
  disk_with [mkEntry "vanilla.json" (Json vanilla);
             mkEntry "copy.json" (Json vanilla)].

(** The same manifest written for the version of [images.py]. *)
Definition vanilla0 : json := sample_manifest "default-vanilla-minecraft" 0.

(** A network that does not answer. *)
Definition offline : Remote :=
  {| rmtree_default := None; open_zip := true; response := false;
     write_zip := true; archive := NotAZip; move_images := true;
     remove_zip := true; rmtree_temp := true |}.

(** A network that serves a bundle holding the given files, on a disk that
    allows every step. *)
Definition serving (files : list entry) : Remote :=
  {| rmtree_default := None; open_zip := true; response := true;
     write_zip := true; archive := Extracted (Some files); move_images := true;
     remove_zip := true; rmtree_temp := true |}.

Definition world (fs : FS) (answers : nat -> Remote) : World :=
  {| disk := fs; net := answers; fetches := 0 |}.

(** A network that answers with something that is not a zip archive. *)
Definition serving_garbage : Remote :=
  {| rmtree_default := None; open_zip := true; response := true;
     write_zip := true; archive := NotAZip; move_images := true;
     remove_zip := true; rmtree_temp := true |}.

Definition one_manifest : FS := disk_with [mkEntry "vanilla.json" (Json vanilla)].

(** Manifests that declare version 1, which neither class supports. *)
Definition vanilla1 : json := sample_manifest "default-vanilla-minecraft" 1.

Definition outdated : FS := disk_with [mkEntry "vanilla.json" (Json vanilla1)].

(** No [default] subtree yet. *)
Definition fresh_install : FS :=
  {| before_default := []; default := None; after_default := [];
     img_zip := false; temp_images := None |}.

(** The first pass of the constructor of [images.py] over a disk. *)
Definition first_pass (fs : FS) : result bool :=
  fst (WilfredImages._read_images false fs {| images := [] |}).

(** Its second pass, after the download. *)
Definition second_pass (fs : FS) : result bool :=
  fst (WilfredImages._read_images true fs {| images := [] |}).

(** [accepts silent f j]: the loop body of [_read_images] accepts the file
    [f] and appends [j]. *)
Definition accepts (silent : bool) (f : entry) (j : json) : Prop :=
  WilfredImages.read_file silent f = Ok (Some j).

(** A manifest whose only environment mapping has no [value_format]. *)
Definition no_value_format : json :=
  JDict (sample_items "default-vanilla-minecraft" 2
           (JDict [("files",
                    JList [JDict [("filename", JStr "server.properties");
                                  ("parser", JStr "properties");
                                  ("environment",
                                   JList [del_quiet "value_format" sample_mapping]);
                                  ("action", JStr "")]])])).

(** A manifest as [images.py] registers it: the eleven top-level keys of its
    [_verify], a [meta.api_version] equal to its [API_VERSION], and the
    three [installation] keys. *)
Definition accepted_manifest (m : json) : Prop :=
  Forall (fun key => exists v, item m key = Ok v) WilfredImages.top_level_keys /\
  (exists v, (meta <- item m "meta" ;; item meta "api_version") = Ok v /\
             eq_int v WilfredImages.API_VERSION = true) /\
  Forall (fun key => exists v, (i <- item m "installation" ;; item i key) = Ok v)
         WilfredImages.installation_keys.

(** ** [src/wilfred/config_parser.py] *)

Module ConfigParser.

Definition API_VERSION : Z := 0.

(** The object: [self.configuration], [None] being [JNull]. *)
Record Config : Type := mkConfig {
  configuration : json
}.

(** What [write] hands to [json.dumps]; [json.loads] reads the text back
    as the same value. *)
Definition written (data_path : string) : json :=
  JDict [("meta", JDict [("version", JInt API_VERSION)]);
         ("data_path", JStr data_path)].

(** [_read]; the first argument is [config.json]: [None] when
    [isfile(config_path)] is false.  Nothing here catches an exception of
    [open], [json.loads] or the lookup. *)
Definition _read (file : option file_content) (self : Config) : result unit * Config :=
  match file with
  | None =>
      let _ := WilfredImages.warning in
      (Ok tt, {| configuration := JNull |})
  | Some Unreadable => (Raise OSError, self)
  | Some (NotJson cause) => (Raise cause, self)
  | Some (Json j) =>
      let self := {| configuration := j |} in
      ((m <- item (configuration self) "meta" ;; v <- item m "version" ;;
        if negb (eq_int v API_VERSION)
        then WilfredImages.error (Some 1)
        else Ok tt), self)
  end.

(** [write(data_path)]; [writable] says whether [open(config_path, "w")]
    succeeds.  The attribute [configuration] is not assigned. *)
Definition write (writable : bool) (data_path : string)
  (file : option file_content) (self : Config)
  : result unit * option file_content * Config :=
  if writable
  then (Ok tt, Some (Json (written data_path)), self)
  else (Raise OSError, file, self).

End ConfigParser.

(** ** [src/wilfred/wilfred.py] *)

(** Truth value of a Python value, as [not v] and [if v] take it. *)
Definition truthy (v : json) : bool :=
  match v with
  | JNull => false
  | JBool b => b
  | JInt n => negb (n =? 0)
  | JFloat (S754_zero _) => false
  | JFloat _ => true
  | JStr s => negb (String.eqb s "")
  | JList l => match l with [] => false | _ => true end
  | JDict items => match items with [] => false | _ => true end
  end.

(** [needle in s] for strings. *)
Fixpoint contains (needle s : string) : bool :=
  String.prefix needle s ||
  match s with
  | EmptyString => false
  | String _ rest => contains needle rest
  end.

Module Wilfred.

(** What the user types at the four prompts of [create]. *)
Record Answers : Type := mkAnswers {
  answer_name : string;
  answer_image_uuid : string;
  answer_port : Z;
  answer_memory : Z
}.

(** The arguments of the call [servers.create(name, image_uuid, memory, port)]. *)
Record Creation : Type := mkCreation {
  created_name : string;
  created_image_uuid : string;
  created_memory : Z;
  created_port : Z
}.

(** [create], up to its call of [servers.create]: the result is that call
    or the exception that ends the command before it.  [config] and
    [images] are the module's objects of that name. *)
Definition create `{StrLower} (config : ConfigParser.Config) (fs : FS) (images : Images)
  (a : Answers) : result Creation * Images :=
  match (if negb (truthy (ConfigParser.configuration config))
         then WilfredImages.error (Some 1) else Ok tt) with
  | Raise e => (Raise e, images)
  | Ok _ =>
      let (_, images) := WilfredImages.pretty images in
      let name := lower (answer_name a) in
      let image_uuid := answer_image_uuid a in
      let port := answer_port a in
      let memory := answer_memory a in
      match ((if contains " " name then WilfredImages.error (Some 1) else Ok tt) ;;;
             (if contains " " image_uuid then WilfredImages.error (Some 1) else Ok tt)) with
      | Raise e => (Raise e, images)
      | Ok _ =>
          let (found, images) := WilfredImages.get_image fs images image_uuid in
          match found with
          | Raise e => (Raise e, images)
          | Ok image =>
              match (if negb (match image with Some d => truthy d | None => false end)
                     then WilfredImages.error (Some 1) else Ok tt) with
              | Raise e => (Raise e, images)
              | Ok _ =>
                  (Ok {| created_name := name; created_image_uuid := image_uuid;
                         created_memory := memory; created_port := port |}, images)
              end
          end
      end
  end.

End Wilfred.

(** * Properties *)

(** ** Inversion of the monad *)

Lemma bind_Ok {A B : Type} (r : result A) (k : A -> result B) (b : B) :
  bind r k = Ok b -> exists a, r = Ok a /\ k a = Ok b.
Proof.
  destruct r as [a|e]; simpl; intros H; [eauto | discriminate].
Qed.

Lemma for_each_Ok {A : Type} (l : list A) (body : A -> result unit) :
  for_each l body = Ok tt -> Forall (fun a => body a = Ok tt) l.
Proof.
  induction l as [|a l IH]; simpl; intros H; constructor.
  - destruct (body a) as [[]|e]; [reflexivity | discriminate].
  - apply IH. destruct (body a); [exact H | discriminate].
Qed.

Lemma probe_Ok (file : string) (expr : result json) (key : keyname) (u : unit) :
  ApiImages.probe file expr key = Ok u -> exists v, expr = Ok v.
Proof.
  unfold ApiImages.probe, try_except, ApiImages._exception.
  destruct expr as [v|e]; simpl; [eauto |].
  destruct (is_Exception e); discriminate.
Qed.

Ltac inv_bind H :=
  let a := fresh "a" in
  let Ha := fresh "Ha" in
  apply bind_Ok in H; destruct H as (a & Ha & H).

(** ** What a manifest that passes the loop body looks like *)

Lemma check_uid_Ok {L : StrLower} (image : json) (file : string) (u : unit) :
  ApiImages.check_uid image file = Ok u ->
  exists s, item image "uid" = Ok (JStr s) /\ s = lower s.
Proof.
  unfold ApiImages.check_uid. intros H. inv_bind H.
  destruct a; try discriminate.
  destruct (String.eqb s (lower s)) eqn:E; simpl in H; [|discriminate].
  exists s. split; [exact Ha | now apply String.eqb_eq].
Qed.

Lemma _verify_Ok {L : StrLower} (image : json) (file : string) (b : bool) :
  ApiImages._verify image file = Ok b ->
  Forall (fun key => exists v, item image key = Ok v) ApiImages.top_level_keys /\
  (exists s, item image "uid" = Ok (JStr s) /\ s = lower s).
Proof.
  unfold ApiImages._verify. intros H.
  inv_bind H. destruct a. apply for_each_Ok in Ha.
  inv_bind H. apply check_uid_Ok in Ha0. split; [|exact Ha0].
  eapply Forall_impl; [|exact Ha]. intros key Hk. eapply probe_Ok, Hk.
Qed.

Lemma check_version_Ok (image : json) (file : string) (u : unit) :
  ApiImages.check_version image file = Ok u ->
  exists v, (meta <- item image "meta" ;; item meta "api_version") = Ok v /\
            eq_int v ApiImages.API_VERSION = true.
Proof.
  unfold ApiImages.check_version.
  destruct (item image "meta") as [meta|e]; simpl.
  - destruct (item meta "api_version") as [v|e]; simpl.
    + destruct (eq_int v ApiImages.API_VERSION) eqn:E; simpl; [eauto | discriminate].
    + destruct e; simpl; discriminate.
  - destruct e; simpl; discriminate.
Qed.

Lemma read_file_valid {L : StrLower} (f : entry) (j : json) :
  ApiImages.read_file f = Ok j -> valid_manifest j.
Proof.
  unfold ApiImages.read_file.
  destruct (fcontent f) as [|cause|image]; try discriminate.
  - unfold try_except. destruct (is_Exception cause); discriminate.
  - intros H. inv_bind H. inv_bind H. injection H as <-.
    apply check_version_Ok in Ha. apply _verify_Ok in Ha0.
    destruct Ha0 as [Hkeys Huid]. repeat split; assumption.
Qed.

Lemma read_loop_valid {L : StrLower} (files : list entry) (self : Images) :
  Forall valid_manifest (images self) ->
  Forall valid_manifest (images (snd (ApiImages.read_loop files self))).
Proof.
  revert self. induction files as [|f rest IH]; intros self Hself; simpl.
  - exact Hself.
  - destruct (endswith (fname f) ".json").
    + destruct (ApiImages.read_file f) as [j|e] eqn:E; simpl; [|exact Hself].
      apply IH. unfold append; simpl. apply Forall_app. split; [exact Hself|].
      constructor; [|constructor]. eapply read_file_valid, E.
    + apply IH, Hself.
Qed.

Lemma read_images_valid {L : StrLower} (fs : FS) (self : Images) :
  Forall valid_manifest (images self) ->
  Forall valid_manifest (images (snd (ApiImages.read_images fs self))).
Proof.
  intros Hself. unfold ApiImages.read_images.
  destruct (negb (ApiImages.check_if_present fs)); simpl; [exact Hself|].
  apply read_loop_valid. constructor.
Qed.

Lemma read_images_Ok_loop {L : StrLower} (fs : FS) (self self' : Images) (b : bool) :
  ApiImages.read_images fs self = (Ok b, self') ->
  ApiImages.read_loop (walk fs) {| images := [] |} = (Ok b, self').
Proof.
  unfold ApiImages.read_images.
  destruct (negb (ApiImages.check_if_present fs)); [discriminate | auto].
Qed.

Lemma get_image_frame (self : Images) (uid : string) :
  snd (ApiImages.get_image self uid) = self.
Proof.
  unfold ApiImages.get_image. destruct (negb (ApiImages._check_if_read self)); reflexivity.
Qed.

Lemma pretty_frame (self : Images) :
  snd (ApiImages.pretty self) = self.
Proof.
  unfold ApiImages.pretty. destruct (negb (ApiImages._check_if_read self)); reflexivity.
Qed.

(** The version test is Python's [==]: the float [2.0] (mantissa 1, exponent
    1) passes it as the integer [2] does, [2.5] and [True] do not. *)
Example version_equality_is_by_value :
  eq_int (JInt 2) ApiImages.API_VERSION = true /\
  eq_int (JFloat (S754_finite false 1 1)) ApiImages.API_VERSION = true /\
  eq_int (JFloat (S754_finite false 5 (-1))) ApiImages.API_VERSION = false /\
  eq_int (JBool true) ApiImages.API_VERSION = false /\
  eq_int (JStr "2") ApiImages.API_VERSION = false.
Proof.
  repeat split.
Qed.

Lemma registry_invariant {L : StrLower} (self : Images) :
  reachable self -> Forall valid_manifest (images self).
Proof.
  intros H. induction H.
  - constructor.
  - now apply read_images_valid.
  - now rewrite get_image_frame.
  - now rewrite pretty_frame.
Qed.

(** C1. After a load that returns normally every manifest of the registry
    has all twelve required top-level keys, a [meta.api_version] equal to
    the supported version and a [uid] equal to its lowercase form; and no
    object that the methods of the class can produce, whatever the disk
    and whether loads succeed or fail, holds a manifest that lacks one of
    these. *)
Theorem registry_holds_only_valid_manifests {L : StrLower} :
  (forall fs self b self',
      ApiImages.read_images fs self = (Ok b, self') ->
      Forall valid_manifest (images self')) /\
  (forall self, reachable self -> Forall valid_manifest (images self)).
Proof.
  split.
  - intros fs self b self' H.
    apply read_images_Ok_loop in H.
    change self' with (snd (Ok b, self')). rewrite <- H.
    apply read_loop_valid. constructor.
  - exact registry_invariant.
Qed.

Lemma registry_holds_only_valid_manifests_witness :
  Forall valid_manifest [vanilla; paper] /\
  Forall valid_manifest
    (images (snd (ApiImages.read_images second_file_broken ApiImages.__init__))).
Proof.
  split.
  - apply (proj1 registry_holds_only_valid_manifests
             two_manifests ApiImages.__init__ true {| images := [vanilla; paper] |}).
    vm_compute. reflexivity.
  - apply (proj2 registry_holds_only_valid_manifests).
    apply reach_read_images, reach_init.
Defined.

(** ** The loop of [read_images], file by file *)

Lemma read_loop_spec {L : StrLower} (files : list entry) : forall (self : Images) r self',
  ApiImages.read_loop files self = (r, self') ->
  (r = Ok true /\
   exists imgs, Forall2 loads (json_files files) imgs /\
                images self' = (images self ++ imgs)%list) \/
  (exists e pre f post imgs,
      r = Raise e /\ json_files files = (pre ++ f :: post)%list /\
      Forall2 loads pre imgs /\ ApiImages.read_file f = Raise e /\
      images self' = (images self ++ imgs)%list).
Proof.
  induction files as [|f rest IH]; intros self r self' H; simpl in H.
  - injection H as <- <-. left. split; [reflexivity|].
    exists []. split; [constructor | now rewrite app_nil_r].
  - unfold json_files; simpl. fold (json_files rest).
    destruct (endswith (fname f) ".json").
    + destruct (ApiImages.read_file f) as [j|e] eqn:E.
      * apply IH in H.
        destruct H as [(-> & imgs & Hl & Hi) | (e & pre & g & post & imgs & -> & Hj & Hl & Hg & Hi)];
          unfold append in Hi; simpl in Hi; rewrite <- app_assoc in Hi; simpl in Hi.
        -- left. split; [reflexivity|]. exists (j :: imgs).
           split; [constructor; assumption | exact Hi].
        -- right. exists e, (f :: pre), g, post, (j :: imgs).
           rewrite Hj. repeat split; try assumption. constructor; assumption.
      * injection H as <- <-. right. exists e, [], f, (json_files rest), [].
        repeat split; [constructor | exact E | now rewrite app_nil_r].
    + apply IH, H.
Qed.

(** ** Lookup by uid *)

Lemma first_with_uid_find {L : StrLower} (x : string) (l : list json) :
  Forall valid_manifest l ->
  ApiImages.first_with_uid x l = Ok (find (has_uid x) l).
Proof.
  induction 1 as [|m l Hm Hl IH]; simpl; [reflexivity|].
  destruct Hm as (_ & _ & s & Hs & _).
  unfold has_uid. rewrite Hs. simpl.
  destruct (String.eqb s x); [reflexivity | exact IH].
Qed.

Lemma has_uid_true (x : string) (m : json) :
  has_uid x m = true <-> item m "uid" = Ok (JStr x).
Proof.
  unfold has_uid. split.
  - destruct (item m "uid") as [u|e]; [|discriminate].
    destruct u; simpl; try discriminate.
    intros H. apply String.eqb_eq in H. now subst.
  - intros ->. simpl. apply String.eqb_refl.
Qed.

Lemma _check_if_read_nonempty (self : Images) :
  images self <> [] -> ApiImages._check_if_read self = true.
Proof.
  unfold ApiImages._check_if_read. destruct (images self); [congruence | reflexivity].
Qed.

(** C3 at its failing input: [default] exists and holds no manifest.  The
    load returns [True]; the registry holds no manifest with the uid asked
    for, and [get_image] raises [ImagesNotRead] where an absent result is
    due. *)
Theorem absent_uid_raises_after_a_successful_empty_load :
  let loaded := ApiImages.read_images empty_default ApiImages.__init__ in
  fst loaded = Ok true /\
  (forall m, In m (images (snd loaded)) -> item m "uid" <> Ok (JStr "nonexistent")) /\
  ApiImages.get_image (snd loaded) "nonexistent"
  = (Raise (ImagesNotRead "Read images before trying to get image"), snd loaded).
Proof.
  split; [reflexivity|]. split; [|reflexivity]. intros m [].
Qed.



(** C8 at its failing input: [default] exists and holds no manifest. The
    load returns [True]; the two queries that follow raise
    [ImagesNotRead]. *)
Theorem queries_raise_after_a_successful_empty_load :
  let loaded := ApiImages.read_images empty_default ApiImages.__init__ in
  fst loaded = Ok true /\
  fst (ApiImages.get_image (snd loaded) "default-vanilla-minecraft")
    = Raise (ImagesNotRead "Read images before trying to get image") /\
  fst (ApiImages.pretty (snd loaded))
    = Raise (ImagesNotRead "Read images before trying to get images").
Proof.
  repeat split.
Qed.

(** The other half of the same test: after a load that failed at its second
    file the registry is not empty and the queries answer. *)
Lemma queries_answer_after_a_failed_load :
  let loaded := ApiImages.read_images second_file_broken ApiImages.__init__ in
  fst loaded = Raise (ParseError "broken.json" (MissingKey (Key "author"))) /\
  fst (ApiImages.get_image (snd loaded) "default-vanilla-minecraft") = Ok (Some vanilla).
Proof.
  split; reflexivity.
Qed.

(** ** Failed and successful loads *)

Lemma loads_content {L : StrLower} (f : entry) (j : json) : loads f j -> fcontent f = Json j.
Proof.
  unfold loads, ApiImages.read_file.
  destruct (fcontent f) as [|cause|image]; try discriminate.
  - unfold try_except. destruct (is_Exception cause); discriminate.
  - intros H. inv_bind H. inv_bind H. now injection H as <-.
Qed.

Lemma Forall2_loads_In {L : StrLower} (l : list entry) (imgs : list json) (f : entry) :
  Forall2 loads l imgs -> In f l -> exists j, ApiImages.read_file f = Ok j.
Proof.
  induction 1 as [|g j l imgs Hg Hl IH]; simpl; [tauto|].
  intros [<- | Hin]; [exists j; exact Hg | auto].
Qed.

Lemma Forall2_loads_contents {L : StrLower} (l : list entry) (imgs : list json) :
  Forall2 loads l imgs -> map fcontent l = map Json imgs.
Proof.
  induction 1 as [|g j l imgs Hg Hl IH]; simpl; [reflexivity|].
  now rewrite (loads_content g j Hg), IH.
Qed.

(** C4, as stated, fails: the load below stops at its second file with a
    [ParseError], and the manifest of the first file stays registered. *)
Lemma failed_load_keeps_earlier_manifests :
  ApiImages.read_images second_file_broken ApiImages.__init__
    = (Raise (ParseError "broken.json" (MissingKey (Key "author"))),
       {| images := [vanilla] |}) /\
  ~ (forall fs e self',
        ApiImages.read_images fs ApiImages.__init__ = (Raise e, self') ->
        images self' = []).
Proof.
  assert (E : ApiImages.read_images second_file_broken ApiImages.__init__
              = (Raise (ParseError "broken.json" (MissingKey (Key "author"))),
                 {| images := [vanilla] |})) by reflexivity.
  split; [exact E|].
  intros H. apply H in E. discriminate E.
Qed.

(** C4, amended. When some discovered manifest file fails parsing,
    validation or the version test, the load fails: it raises the
    exception of the first such file of the walk, and the registry then
    holds the manifests of the files before that one and nothing of that
    file or of a later one. *)
Theorem failed_load_registers_the_files_before_the_failure {L : StrLower}
  (fs : FS) (self : Images) (f : entry) (e0 : exn) :
  isdir_default fs = true ->
  In f (json_files (walk fs)) ->
  ApiImages.read_file f = Raise e0 ->
  exists e pre g post imgs,
    ApiImages.read_images fs self = (Raise e, {| images := imgs |}) /\
    json_files (walk fs) = (pre ++ g :: post)%list /\
    Forall2 loads pre imgs /\
    ApiImages.read_file g = Raise e.
Proof.
  intros Hdir Hin Hf. unfold ApiImages.read_images, ApiImages.check_if_present.
  rewrite Hdir. simpl.
  destruct (ApiImages.read_loop (walk fs) {| images := [] |}) as [r self'] eqn:E.
  destruct (read_loop_spec _ _ _ _ E)
    as [(-> & imgs & Hl & Hi) | (e & pre & g & post & imgs & -> & Hj & Hl & Hg & Hi)].
  - destruct (Forall2_loads_In _ _ f Hl Hin) as [j Hj]. congruence.
  - exists e, pre, g, post, imgs. simpl in Hi. destruct self' as [l]. simpl in Hi.
    subst l. auto.
Qed.

Lemma failed_load_registers_the_files_before_the_failure_witness :
  exists e pre g post imgs,
    ApiImages.read_images second_file_broken ApiImages.__init__
      = (Raise e, {| images := imgs |}) /\
    json_files (walk second_file_broken) = (pre ++ g :: post)%list /\
    Forall2 loads pre imgs /\
    ApiImages.read_file g = Raise e.
Proof.
  apply (failed_load_registers_the_files_before_the_failure
           second_file_broken ApiImages.__init__
           (mkEntry "broken.json" (Json no_author))
           (ParseError "broken.json" (MissingKey (Key "author")))).
  - reflexivity.
  - vm_compute. right. left. reflexivity.
  - reflexivity.
Defined.

(** C7, as stated, fails: two files with the same uid load without an
    error and the registry holds both. *)
Lemma same_uid_is_registered_twice :
  ApiImages.read_images same_uid_twice ApiImages.__init__
    = (Ok true, {| images := [vanilla; vanilla] |}) /\
  ~ (forall fs self b self',
        ApiImages.read_images fs self = (Ok b, self') ->
        NoDup (uids (images self'))).
Proof.
  assert (E : ApiImages.read_images same_uid_twice ApiImages.__init__
              = (Ok true, {| images := [vanilla; vanilla] |})) by reflexivity.
  split; [exact E|].
  intros H. apply H in E. simpl in E.
  apply NoDup_cons_iff in E. apply (proj1 E). left. reflexivity.
Qed.

(** C7, amended. The load does not compare uids: when it succeeds the
    registry holds one manifest for each discovered [.json] file, the value
    parsed from that file, in the order of the walk, whether or not uids
    repeat. *)
Theorem successful_load_registers_every_file {L : StrLower}
  (fs : FS) (self self' : Images) (b : bool) :
  ApiImages.read_images fs self = (Ok b, self') ->
  map fcontent (json_files (walk fs)) = map Json (images self').
Proof.
  intros H. apply read_images_Ok_loop in H.
  destruct (read_loop_spec _ _ _ _ H)
    as [(_ & imgs & Hl & Hi) | (e & pre & g & post & imgs & He & _)].
  - simpl in Hi. rewrite Hi. now apply Forall2_loads_contents.
  - discriminate He.
Qed.

Lemma successful_load_registers_every_file_witness :
  map fcontent (json_files (walk same_uid_twice)) = map Json [vanilla; vanilla].
Proof.
  apply (successful_load_registers_every_file
           same_uid_twice ApiImages.__init__ {| images := [vanilla; vanilla] |} true).
  reflexivity.
Defined.

(** ** Validation and the version test *)

Lemma for_each_first_failure {A : Type} (body : A -> result unit)
  (pre : list A) (a : A) (post : list A) (e : exn) :
  Forall (fun x => body x = Ok tt) pre ->
  body a = Raise e ->
  for_each (pre ++ a :: post) body = Raise e.
Proof.
  induction 1 as [|x pre Hx Hpre IH]; simpl; intros Ha.
  - now rewrite Ha.
  - rewrite Hx. simpl. exact (IH Ha).
Qed.

Lemma subscript_raises_Exception (v : json) (i : index) (e : exn) :
  subscript v i = Raise e -> is_Exception e = true.
Proof.
  destruct v, i; simpl; intros H;
    repeat match type of H with
           | match ?x with _ => _ end = _ => destruct x
           end;
    try discriminate H; injection H as <-; reflexivity.
Qed.

(** Where the claim of C5 holds: when a top-level key is missing,
    [_verify] stops at the first missing one in the order of the tuple and
    its error names the file and that key. *)
Lemma first_missing_top_level_key_is_named {L : StrLower}
  (image : json) (file : string) (pre : list string) (k : string) (post : list string) :
  ApiImages.top_level_keys = (pre ++ k :: post)%list ->
  Forall (fun key => exists v, item image key = Ok v) pre ->
  (forall v, item image k <> Ok v) ->
  ApiImages._verify image file = Raise (ParseError file (MissingKey (Key k))).
Proof.
  intros Hk Hpre Hmiss. unfold ApiImages._verify. rewrite Hk.
  rewrite (for_each_first_failure _ pre k post (ParseError file (MissingKey (Key k)))).
  - reflexivity.
  - eapply Forall_impl; [|exact Hpre]. intros key [v Hv].
    unfold ApiImages.probe. now rewrite Hv.
  - unfold ApiImages.probe, try_except, ApiImages._exception.
    destruct (item image k) as [v|e] eqn:E; [now destruct (Hmiss v)|].
    simpl. now rewrite (subscript_raises_Exception _ _ _ E).
Qed.

(** A missing key of an environment mapping is reported with the
    [filename] of the file entry that owns the mapping. *)
Lemma missing_value_format_is_reported_with_the_filename :
  ApiImages._verify no_value_format "vanilla.json"
    = Raise (ParseError "vanilla.json"
               (MissingKey (EnvKey (JStr "server.properties") "value_format"))) /\
  ParseError_message "vanilla.json"
    (MissingKey (EnvKey (JStr "server.properties") "value_format"))
    = Some "image vanilla.json is missing key server.properties environment key value_format".
Proof.
  split; reflexivity.
Qed.

(** C5 at its failing input: a manifest that has everything but
    [config.files].  [installation.script] is there, and the error names
    [script]; the key that is missing, [files], is not named. *)
Theorem missing_config_files_is_reported_as_script :
  (m <- item no_files "installation" ;; item m "script") = Ok (JStr "install.sh") /\
  ApiImages.config_files no_files = Raise (KeyError (IStr "files")) /\
  ApiImages._verify no_files "vanilla.json"
    = Raise (ParseError "vanilla.json" (MissingKey (Key "script"))) /\
  ParseError_message "vanilla.json" (MissingKey (Key "script"))
    = Some "image vanilla.json is missing key script".
Proof.
  repeat split.
Qed.

(** C6, as stated, fails: a manifest that lacks [author] and declares
    version 1 is answered with the version mismatch, in both classes,
    although [_verify] rejects it. *)
Lemma mismatch_is_reported_before_missing_key :
  ApiImages._verify (old_no_author 1) "old.json"
    = Raise (ParseError "old.json" (MissingKey (Key "author"))) /\
  ApiImages.read_file (mkEntry "old.json" (Json (old_no_author 1)))
    = Raise (ImageAPIMismatch "old.json" (JInt 1) 2) /\
  WilfredImages.read_file false (mkEntry "old.json" (Json (old_no_author 1)))
    = Ok None.
Proof.
  repeat split.
Qed.

Lemma api_read_file_mismatch {L : StrLower} (f : entry) (image v : json) :
  fcontent f = Json image ->
  (meta <- item image "meta" ;; item meta "api_version") = Ok v ->
  eq_int v ApiImages.API_VERSION = false ->
  ApiImages.read_file f
    = Raise (ImageAPIMismatch (fname f) v ApiImages.API_VERSION).
Proof.
  intros Hc Hv Hne.
  apply bind_Ok in Hv. destruct Hv as (meta & Hmeta & Hv).
  unfold ApiImages.read_file, ApiImages.check_version.
  rewrite Hc, Hmeta. simpl. rewrite Hv. simpl. rewrite Hne. reflexivity.
Qed.

Lemma wilfred_read_file_mismatch (f : entry) (image v : json) (silent : bool) :
  fcontent f = Json image ->
  (meta <- item image "meta" ;; item meta "api_version") = Ok v ->
  eq_int v WilfredImages.API_VERSION = false ->
  WilfredImages.read_file silent f = Ok None.
Proof.
  intros Hc Hv Hne.
  apply bind_Ok in Hv. destruct Hv as (meta & Hmeta & Hv).
  unfold WilfredImages.read_file, WilfredImages.check_version.
  rewrite Hc, Hmeta. simpl. rewrite Hv. simpl. rewrite Hne.
  destruct silent; reflexivity.
Qed.

(** C6, amended. Each parsed record goes through the version test first
    and through [_verify] after it.  A record that declares a version other
    than the supported one gets the version-mismatch outcome whatever else
    it lacks: [ImageAPIMismatch] in [api/images.py], [return False] in
    [images.py]; and a [ParseError] is only raised for a record whose
    declared version is the supported one. *)
Theorem version_test_precedes_validation {L : StrLower} (f : entry) (image v : json) :
  fcontent f = Json image ->
  (meta <- item image "meta" ;; item meta "api_version") = Ok v ->
  (eq_int v ApiImages.API_VERSION = false ->
   ApiImages.read_file f
     = Raise (ImageAPIMismatch (fname f) v ApiImages.API_VERSION)) /\
  (eq_int v WilfredImages.API_VERSION = false ->
   forall silent, WilfredImages.read_file silent f = Ok None) /\
  (forall file what,
      ApiImages.read_file f = Raise (ParseError file what) ->
      eq_int v ApiImages.API_VERSION = true).
Proof.
  intros Hc Hv.
  pose proof (api_read_file_mismatch f image v Hc Hv) as Hmis.
  repeat split.
  - exact Hmis.
  - intros Hne silent. now apply (wilfred_read_file_mismatch f image v).
  - intros file what H.
    destruct (eq_int v ApiImages.API_VERSION) eqn:E; [reflexivity|].
    rewrite (Hmis eq_refl) in H. discriminate H.
Qed.

Lemma version_test_precedes_validation_witness :
  (eq_int (JInt 1) ApiImages.API_VERSION = false ->
   ApiImages.read_file (mkEntry "old.json" (Json (old_no_author 1)))
     = Raise (ImageAPIMismatch "old.json" (JInt 1) ApiImages.API_VERSION)) /\
  (eq_int (JInt 1) WilfredImages.API_VERSION = false ->
   forall silent,
     WilfredImages.read_file silent (mkEntry "old.json" (Json (old_no_author 1)))
       = Ok None) /\
  (forall file what,
      ApiImages.read_file (mkEntry "old.json" (Json (old_no_author 1)))
        = Raise (ParseError file what) ->
      eq_int (JInt 1) ApiImages.API_VERSION = true).
Proof.
  apply (version_test_precedes_validation
           (mkEntry "old.json" (Json (old_no_author 1))) (old_no_author 1) (JInt 1)).
  - reflexivity.
  - reflexivity.
Defined.

(** ** Queries and the registry *)

(** C9 at its failing input, in [images.py]: the constructor registers one
    manifest read from the disk; [pretty] then deletes seven of its keys
    in the registry itself, [meta] among them. *)
Theorem pretty_strips_the_registered_manifests :
  let w := world (disk_with [mkEntry "vanilla.json" (Json vanilla0)]) (fun _ => offline) in
  let '(r, _, self) := WilfredImages.__init__ w in
  r = Ok tt /\ images self = [vanilla0] /\
  item vanilla0 "meta" = Ok (JDict [("api_version", JInt 0)]) /\
  Forall (fun m => item m "meta" = Raise (KeyError (IStr "meta")) /\
                   item m "command" = Raise (KeyError (IStr "command")))
         (images (snd (WilfredImages.pretty self))) /\
  images (snd (WilfredImages.pretty self)) <> images self.
Proof.
  simpl. repeat split.
  - repeat constructor.
  - discriminate.
Qed.

(** The same queries in [api/images.py] leave the object as it was. *)
Lemma api_queries_leave_the_registry (self : Images) (uid : string) :
  snd (ApiImages.pretty self) = self /\ snd (ApiImages.get_image self uid) = self.
Proof.
  split; [apply pretty_frame | apply get_image_frame].
Qed.

(** ** The download *)

(** C10, as stated, fails: when the network does not answer, the exception
    of the library escapes as it is, the old [default] subtree is gone and
    the archive file that was opened for writing is still there; a
    response that is not an archive ends in another exception class. *)
Lemma failed_download_leaves_the_archive :
  download_steps offline one_manifest
    = (Raise ConnectionError,
       {| before_default := []; default := None; after_default := [];
          img_zip := true; temp_images := None |}) /\
  fst (download_steps serving_garbage one_manifest) = Raise BadZipFile /\
  ~ (forall r fs e fs',
        download_steps r fs = (Raise e, fs') ->
        img_zip fs' = false /\ temp_images fs' = None).
Proof.
  assert (E : download_steps offline one_manifest
              = (Raise ConnectionError,
                 {| before_default := []; default := None; after_default := [];
                    img_zip := true; temp_images := None |})) by reflexivity.
  split; [exact E | split; [reflexivity|]].
  intros H. apply H in E. destruct E as [E _]. discriminate E.
Qed.

(** C10, amended. The download starts by removing an existing [default]
    subtree, ignoring the errors of that removal.  When every step
    succeeds, [default] is the extracted [images] subtree (alone, when the
    removal worked) and the archive and the scratch directory are gone.
    When a step fails, the exception of that step leaves the method as it
    is, [OSError], [ConnectionError] or [BadZipFile], and nothing is cleaned
    up: after a network or archive failure the archive file is still on
    the disk and [default] is what the removal left. *)
Theorem download_outcome (r : Remote) (fs fs' : FS) (res : result unit) :
  download_steps r fs = (res, fs') ->
  (forall u, res = Ok u ->
     img_zip fs' = false /\ temp_images fs' = None /\
     exists src, archive r = Extracted (Some src) /\
       default fs' = Some (moved_into (rmtree_ignore_errors r (default fs)) src)) /\
  (forall e, res = Raise e ->
     (e = OSError \/ e = ConnectionError \/ e = BadZipFile) /\
     (e = ConnectionError \/ e = BadZipFile ->
      img_zip fs' = true /\ default fs' = rmtree_ignore_errors r (default fs))).
Proof.
  unfold download_steps.
  destruct (open_zip r), (response r), (write_zip r); simpl;
    try (intros H; injection H as <- <-; split;
         [ intros u Hu; discriminate Hu
         | intros e He; injection He as <-; split;
           [ auto | intros [C|C]; try discriminate C; auto ] ]).
  destruct (archive r) as [|remains|[src|]]; simpl;
    try (intros H; injection H as <- <-; split;
         [ intros u Hu; discriminate Hu
         | intros e He; injection He as <-; split;
           [ auto | intros [C|C]; try discriminate C; auto ] ]).
  destruct (move_images r), (remove_zip r), (rmtree_temp r); simpl;
    intros H; injection H as <- <-; split;
    try (intros u Hu; discriminate Hu);
    try (intros e He; injection He as <-; split;
         [ auto | intros [C|C]; discriminate C ]).
  intros u _. simpl. repeat split. exists src. split; reflexivity.
Qed.

Lemma download_outcome_witness :
  (forall u, @Raise unit ConnectionError = Ok u ->
     img_zip (snd (download_steps offline one_manifest)) = false /\
     temp_images (snd (download_steps offline one_manifest)) = None /\
     exists src, archive offline = Extracted (Some src) /\
       default (snd (download_steps offline one_manifest))
       = Some (moved_into (rmtree_ignore_errors offline (default one_manifest)) src)) /\
  (forall e, @Raise unit ConnectionError = Raise e ->
     (e = OSError \/ e = ConnectionError \/ e = BadZipFile) /\
     (e = ConnectionError \/ e = BadZipFile ->
      img_zip (snd (download_steps offline one_manifest)) = true /\
      default (snd (download_steps offline one_manifest))
      = rmtree_ignore_errors offline (default one_manifest))).
Proof.
  apply (download_outcome offline one_manifest
           (snd (download_steps offline one_manifest)) (Raise ConnectionError)).
  reflexivity.
Defined.

(** ** The refetch on a version mismatch *)

Lemma read_loop_fails_at {L : StrLower} (files : list entry) :
  forall self pre f post imgs e,
    json_files files = (pre ++ f :: post)%list ->
    Forall2 loads pre imgs ->
    ApiImages.read_file f = Raise e ->
    ApiImages.read_loop files self
      = (Raise e, {| images := (images self ++ imgs)%list |}).
Proof.
  induction files as [|g rest IH]; intros self pre f post imgs e Hj Hl Hf.
  - destruct pre; discriminate Hj.
  - unfold json_files in Hj. simpl in Hj |- *. fold (json_files rest) in Hj.
    destruct (endswith (fname g) ".json").
    + destruct Hl as [|p j pre imgs Hp Hl]; simpl in Hj; injection Hj as -> Hj.
      * rewrite Hf, app_nil_r. now destruct self.
      * unfold loads in Hp. rewrite Hp.
        rewrite (IH (append self j) pre f post imgs e Hj Hl Hf).
        unfold append; simpl. now rewrite <- app_assoc.
    + now apply (IH self pre f post).
Qed.

Lemma download_default_counts (w : World) (self : Images) :
  exists r,
    WilfredImages.download_default false w self
    = (r, {| disk := snd (download_steps (net w (fetches w)) (disk w));
             net := net w; fetches := S (fetches w) |}, self) /\
    (forall fs2, download_steps (net w (fetches w)) (disk w) = (Ok tt, fs2) -> r = Ok tt) /\
    (forall u, r = Ok u -> fst (download_steps (net w (fetches w)) (disk w)) = Ok tt).
Proof.
  unfold WilfredImages.download_default.
  destruct (download_steps (net w (fetches w)) (disk w)) as [[[]|e] fs]; simpl.
  - exists (Ok tt). repeat split.
  - exists (Raise e). split; [reflexivity|]. split.
    + intros fs2 H. discriminate H.
    + intros u H. discriminate H.
Qed.

Lemma wilfred_read_loop_stops_at (silent : bool) (files : list entry) :
  forall self pre f post imgs,
    json_files files = (pre ++ f :: post)%list ->
    Forall2 (accepts silent) pre imgs ->
    WilfredImages.read_file silent f = Ok None ->
    WilfredImages.read_loop silent files self
      = (Ok false, {| images := (images self ++ imgs)%list |}).
Proof.
  induction files as [|g rest IH]; intros self pre f post imgs Hj Hl Hf.
  - destruct pre; discriminate Hj.
  - unfold json_files in Hj. simpl in Hj |- *. fold (json_files rest) in Hj.
    destruct (endswith (fname g) ".json").
    + destruct Hl as [|p j pre imgs Hp Hl]; simpl in Hj; injection Hj as -> Hj.
      * rewrite Hf, app_nil_r. now destruct self.
      * unfold accepts in Hp. rewrite Hp.
        rewrite (IH (append self j) pre f post imgs Hj Hl Hf).
        unfold append; simpl. now rewrite <- app_assoc.
    + now apply (IH self pre f post).
Qed.

(** C2, as stated, fails.  In [api/images.py] the first load of an
    outdated manifest raises [ImageAPIMismatch] at once: [read_images]
    downloads nothing.  In [images.py] the constructor downloads once for
    the mismatch and, the bundle being outdated too, ends the process with
    exit code 1, not with [ImageAPIMismatch]; started without a [default]
    subtree it downloads twice. *)
Lemma mismatch_outcomes_of_the_two_classes :
  ApiImages.read_images outdated ApiImages.__init__
    = (Raise (ImageAPIMismatch "vanilla.json" (JInt 1) 2), {| images := [] |}) /\
  (let '(r, w', _) :=
     WilfredImages.__init__
       (world outdated (fun _ => serving [mkEntry "vanilla.json" (Json vanilla1)])) in
   r = Raise (SystemExit 1) /\ fetches w' = 1%nat) /\
  (let '(r, w', _) :=
     WilfredImages.__init__
       (world fresh_install (fun _ => serving [mkEntry "vanilla.json" (Json vanilla1)])) in
   r = Raise (SystemExit 1) /\ fetches w' = 2%nat).
Proof.
  split; [reflexivity|]. split; simpl; split; reflexivity.
Qed.

(** C2, amended.  [read_images] of [api/images.py] never downloads: at
    the first file that does not load, a manifest whose version differs
    from the supported one, it raises [ImageAPIMismatch].  A pass of
    [images.py] returns [False] at such a file.  The constructor of
    [images.py] downloads at most twice: once at the start when [default]
    is absent (an exception of that download ends the constructor), and
    once when its first pass returns [False].  Whether [default] was
    there or has just been fetched, a first pass that returns [True], or
    that ends in an exception or an exit, is followed by no download; a
    first pass that returns [False] is followed by exactly one download,
    whose exception ends the constructor, and by one more pass, which,
    when it returns [False] again, ends the process with exit code 1. *)
Theorem version_mismatch_is_refetched_at_most_once {L : StrLower} :
  (forall fs self pre f post imgs image v,
      isdir_default fs = true ->
      json_files (walk fs) = (pre ++ f :: post)%list ->
      Forall2 loads pre imgs ->
      fcontent f = Json image ->
      (meta <- item image "meta" ;; item meta "api_version") = Ok v ->
      eq_int v ApiImages.API_VERSION = false ->
      ApiImages.read_images fs self
        = (Raise (ImageAPIMismatch (fname f) v ApiImages.API_VERSION),
           {| images := imgs |})) /\
  (forall fs pre f post imgs image v,
      json_files (walk fs) = (pre ++ f :: post)%list ->
      Forall2 (accepts false) pre imgs ->
      fcontent f = Json image ->
      (meta <- item image "meta" ;; item meta "api_version") = Ok v ->
      eq_int v WilfredImages.API_VERSION = false ->
      first_pass fs = Ok false) /\
  (forall w,
      let '(r, w', _) := WilfredImages.__init__ w in
      (fetches w' <= fetches w + 2)%nat /\
      (isdir_default (disk w) = true ->
       (first_pass (disk w) = Ok true -> r = Ok tt /\ fetches w' = fetches w) /\
       (forall e, first_pass (disk w) = Raise e ->
                  r = Raise e /\ fetches w' = fetches w) /\
       (first_pass (disk w) = Ok false ->
        fetches w' = (fetches w + 1)%nat /\
        (forall e fs2,
            download_steps (net w (fetches w)) (disk w) = (Raise e, fs2) ->
            r = Raise e) /\
        forall fs2,
          download_steps (net w (fetches w)) (disk w) = (Ok tt, fs2) ->
          disk w' = fs2 /\
          (second_pass fs2 = Ok false -> r = Raise (SystemExit 1)) /\
          (second_pass fs2 = Ok true -> r = Ok tt) /\
          (forall e, second_pass fs2 = Raise e -> r = Raise e))) /\
      (isdir_default (disk w) = false ->
       (forall e fs1,
           download_steps (net w (fetches w)) (disk w) = (Raise e, fs1) ->
           r = Raise e /\ fetches w' = (fetches w + 1)%nat) /\
       forall fs1,
         download_steps (net w (fetches w)) (disk w) = (Ok tt, fs1) ->
         (first_pass fs1 = Ok true -> r = Ok tt /\ fetches w' = (fetches w + 1)%nat) /\
         (forall e, first_pass fs1 = Raise e ->
                    r = Raise e /\ fetches w' = (fetches w + 1)%nat) /\
         (first_pass fs1 = Ok false ->
          fetches w' = (fetches w + 2)%nat /\
          (forall e fs2,
              download_steps (net w (S (fetches w))) fs1 = (Raise e, fs2) ->
              r = Raise e) /\
          forall fs2,
            download_steps (net w (S (fetches w))) fs1 = (Ok tt, fs2) ->
            disk w' = fs2 /\
            (second_pass fs2 = Ok false -> r = Raise (SystemExit 1)) /\
            (second_pass fs2 = Ok true -> r = Ok tt) /\
            (forall e, second_pass fs2 = Raise e -> r = Raise e)))).
Proof.
  split.
  - intros fs self pre f post imgs image v Hdir Hj Hl Hc Hv Hne.
    unfold ApiImages.read_images, ApiImages.check_if_present. rewrite Hdir. simpl.
    apply (read_loop_fails_at (walk fs) {| images := [] |} pre f post imgs _ Hj Hl).
    now apply (api_read_file_mismatch f image v).
  - split.
    { intros fs pre f post imgs image v Hj Hl Hc Hv Hne.
      unfold first_pass, WilfredImages._read_images.
      rewrite (wilfred_read_loop_stops_at false (walk fs) _ pre f post imgs Hj Hl).
      - reflexivity.
      - now apply (wilfred_read_file_mismatch f image v). }
    intros w.
    unfold WilfredImages.__init__, first_pass, second_pass, WilfredImages._read_images.
    destruct (isdir_default (disk w)) eqn:Hdir; simpl.
    + destruct (WilfredImages.read_loop false (walk (disk w)) {| images := [] |})
        as [[[|]|e] self1] eqn:E1; simpl.
      * split; [lia|]. split; [|intros H; discriminate H].
        intros _. repeat split; try discriminate; try lia.
      * unfold WilfredImages.download_default.
        destruct (download_steps (net w (fetches w)) (disk w)) as [[[]|e2] fsd] eqn:Ed; simpl.
        -- destruct (WilfredImages.read_loop true (walk fsd) {| images := [] |})
             as [[[|]|e] self2] eqn:E2; simpl;
             (split; [lia|]); (split; [|intros H; discriminate H]); intros _;
             (split; [intros H; discriminate H|]);
             (split; [intros e' H; discriminate H|]);
             intros _; (split; [lia|]);
             (split; [intros e' fs2 H; discriminate H|]);
             intros fs2 Hd; injection Hd as <-; rewrite E2; simpl;
             repeat split; try (intros H; try reflexivity; discriminate H);
             intros e' H; first [discriminate H | now injection H as <-].
        -- split; [lia|]. split; [|intros H; discriminate H]. intros _.
           split; [intros H; discriminate H|].
           split; [intros e' H; discriminate H|].
           intros _. split; [lia|].
           split; [intros e' fs2 H; now injection H as <- _|].
           intros fs2 H. discriminate H.
      * split; [lia|]. split; [|intros H; discriminate H]. intros _.
        split; [intros H; discriminate H|].
        split; [intros e' H; injection H as <-; auto|].
        intros H; discriminate H.
    + unfold WilfredImages.download_default.
      destruct (download_steps (net w (fetches w)) (disk w)) as [[[]|e0] fs1] eqn:Ed0; simpl.
      * destruct (WilfredImages.read_loop false (walk fs1) {| images := [] |})
          as [[[|]|e] self1] eqn:E1; simpl.
        -- split; [lia|]. split; [intros H; discriminate H|]. intros _.
           split; [intros e' fs H; discriminate H|].
           intros fs Hd. injection Hd as <-. rewrite E1. simpl.
           repeat split; try discriminate; try lia.
        -- destruct (download_steps (net w (S (fetches w))) fs1) as [[[]|e2] fsd] eqn:Ed; simpl.
           ++ destruct (WilfredImages.read_loop true (walk fsd) {| images := [] |})
                as [[[|]|e] self2] eqn:E2; simpl;
                (split; [lia|]); (split; [intros H; discriminate H|]); intros _;
                (split; [intros e' fs H; discriminate H|]);
                intros fs Hd; injection Hd as <-; rewrite E1; simpl;
                (split; [intros H; discriminate H|]);
                (split; [intros e' H; discriminate H|]);
                intros _; (split; [lia|]);
                (split; [intros e' fs2 H; rewrite Ed in H; discriminate H|]);
                intros fs2 Hd; rewrite Ed in Hd; injection Hd as <-; rewrite E2; simpl;
                repeat split; try (intros H; try reflexivity; discriminate H);
                intros e' H; first [discriminate H | now injection H as <-].
           ++ split; [lia|]. split; [intros H; discriminate H|]. intros _.
              split; [intros e' fs H; discriminate H|].
              intros fs Hd. injection Hd as <-. rewrite E1. simpl.
              split; [intros H; discriminate H|].
              split; [intros e' H; discriminate H|].
              intros _. split; [lia|].
              split; [intros e' fs2 H; rewrite Ed in H; now injection H as <- _|].
              intros fs2 H. rewrite Ed in H. discriminate H.
        -- split; [lia|]. split; [intros H; discriminate H|]. intros _.
           split; [intros e' fs H; discriminate H|].
           intros fs Hd. injection Hd as <-. rewrite E1. simpl.
           split; [intros H; discriminate H|].
           split; [intros e' H; injection H as <-; split; [reflexivity | lia]|].
           intros H; discriminate H.
      * split; [lia|]. split; [intros H; discriminate H|]. intros _.
        split; [intros e' fs H; injection H as <- _; split; [reflexivity | lia]|].
        intros fs H. discriminate H.
Qed.

Lemma version_mismatch_is_refetched_at_most_once_witness :
  ApiImages.read_images outdated ApiImages.__init__
    = (Raise (ImageAPIMismatch "vanilla.json" (JInt 1) ApiImages.API_VERSION),
       {| images := [] |}) /\
  first_pass outdated = Ok false /\
  (let '(r, w', _) :=
     WilfredImages.__init__
       (world fresh_install (fun _ => serving [mkEntry "vanilla.json" (Json vanilla1)])) in
   r = Raise (SystemExit 1) /\ fetches w' = 2%nat).
Proof.
  destruct version_mismatch_is_refetched_at_most_once as (Hapi & Hpass & Hinit).
  split; [|split].
  - apply (Hapi outdated ApiImages.__init__ [] (mkEntry "vanilla.json" (Json vanilla1))
             [] [] vanilla1 (JInt 1)); try reflexivity. constructor.
  - apply (Hpass outdated [] (mkEntry "vanilla.json" (Json vanilla1))
             [] [] vanilla1 (JInt 1)); try reflexivity. constructor.
  - pose proof (Hinit (world fresh_install
                         (fun _ => serving [mkEntry "vanilla.json" (Json vanilla1)]))) as H.
    destruct (WilfredImages.__init__
                (world fresh_install
                   (fun _ => serving [mkEntry "vanilla.json" (Json vanilla1)])))
      as [[r w'] self].
    destruct H as (_ & _ & H). destruct (H eq_refl) as (_ & H1).
    destruct (H1 _ eq_refl) as (_ & _ & H2). destruct (H2 eq_refl) as (Hf & _ & H3).
    destruct (H3 _ eq_refl) as (_ & Hexit & _).
    split; [exact (Hexit eq_refl) | exact Hf].
Defined.

(** * Further properties of the code *)

(** ** What [_verify] accepts *)

Lemma for_each_seq_Ok (n : nat) (body : nat -> result unit) :
  for_each (seq 0 n) body = Ok tt -> forall i, (i < n)%nat -> body i = Ok tt.
Proof.
  intros H i Hi. apply for_each_Ok in H.
  rewrite Forall_forall in H. apply H. apply in_seq. lia.
Qed.

Lemma guarded_loop_Ok (n : nat) (body : nat -> result unit) (u : unit) :
  (if (0 <? n)%nat then for_each (seq 0 n) body else Ok tt) = Ok u ->
  forall i, (i < n)%nat -> body i = Ok tt.
Proof.
  destruct u. destruct (0 <? n)%nat eqn:E.
  - apply for_each_seq_Ok.
  - apply Nat.ltb_ge in E. intros _ i Hi. lia.
Qed.

Lemma probes_Ok (file : string) (expr : string -> result json) (keys : list string) :
  for_each keys (fun key => ApiImages.probe file (expr key) (Key key)) = Ok tt ->
  Forall (fun key => exists v, expr key = Ok v) keys.
Proof.
  intros H. apply for_each_Ok in H.
  eapply Forall_impl; [|exact H]. intros key Hk. eapply probe_Ok, Hk.
Qed.

Lemma try_except_Ok {A : Type} (body : result A) (handler : exn -> result A) (a : A) :
  (forall e, handler e <> Ok a) -> try_except body handler = Ok a -> body = Ok a.
Proof.
  unfold try_except. intros Hh. destruct body as [x|e]; [auto|].
  destruct (is_Exception e); [|discriminate]. intros H. now destruct (Hh e).
Qed.

Lemma check_file_Ok (image : json) (file : string) (i : nat) :
  ApiImages.check_file image file i = Ok tt ->
  Forall (fun key => exists v, (f <- ApiImages.config_file image i ;; item f key) = Ok v)
         ApiImages.file_keys /\
  exists env n,
    ApiImages.file_environment image i = Ok env /\ len env = Ok n /\
    forall x, (x < n)%nat ->
      Forall (fun key => exists v,
                (e <- ApiImages.file_environment image i ;;
                 m <- subscript e (IInt x) ;; item m key) = Ok v)
             ApiImages.environment_keys.
Proof.
  unfold ApiImages.check_file. intros H.
  inv_bind H. destruct a. apply probes_Ok in Ha. split; [exact Ha|].
  inv_bind H. inv_bind H. exists a, a0. repeat split; try assumption.
  intros x Hx. apply (for_each_seq_Ok _ _ H) in Hx.
  apply for_each_Ok in Hx. eapply Forall_impl; [|exact Hx].
  intros key Hk. simpl in Hk.
  apply try_except_Ok in Hk.
  - destruct (ApiImages.file_environment image i) as [e0|?]; simpl in *; [|discriminate].
    destruct (subscript e0 (IInt x)) as [m0|?]; simpl in *; [|discriminate].
    destruct (item m0 key) as [v|?]; simpl in *; [eauto | discriminate].
  - intros e. unfold ApiImages._exception.
    destruct (f <- ApiImages.config_file image i;; item f "filename"); discriminate.
Qed.

(** X1. A manifest that [_verify] accepts is complete down to its nested
    records: the result is [True], [meta.api_version] and the three
    [installation] keys are there, [config.files] is there and each of its
    entries has its four keys and, in each mapping of its [environment],
    the three mapping keys, and each entry of [variables] has its five
    keys. *)
Theorem verify_accepts_only_complete_manifests {L : StrLower} (image : json) (file : string) (b : bool) :
  ApiImages._verify image file = Ok b ->
  b = true /\
  (exists v, (m <- item image "meta" ;; item m "api_version") = Ok v) /\
  Forall (fun key => exists v, (m <- item image "installation" ;; item m key) = Ok v)
         ApiImages.installation_keys /\
  (exists files n,
      ApiImages.config_files image = Ok files /\ len files = Ok n /\
      forall i, (i < n)%nat ->
        Forall (fun key => exists v,
                  (f <- ApiImages.config_file image i ;; item f key) = Ok v)
               ApiImages.file_keys /\
        exists env m,
          ApiImages.file_environment image i = Ok env /\ len env = Ok m /\
          forall x, (x < m)%nat ->
            Forall (fun key => exists v,
                      (e <- ApiImages.file_environment image i ;;
                       mp <- subscript e (IInt x) ;; item mp key) = Ok v)
                   ApiImages.environment_keys) /\
  (exists vars k,
      item image "variables" = Ok vars /\ len vars = Ok k /\
      forall i, (i < k)%nat ->
        Forall (fun key => exists v,
                  (v0 <- ApiImages.variable image i ;; item v0 key) = Ok v)
               ApiImages.variable_keys).
Proof.
  unfold ApiImages._verify. intros H.
  apply bind_Ok in H. destruct H as (u1 & _ & H).
  apply bind_Ok in H. destruct H as (u2 & _ & H).
  apply bind_Ok in H. destruct H as ([] & Hmeta & H). apply probes_Ok in Hmeta.
  apply bind_Ok in H. destruct H as ([] & Hinst & H). apply probes_Ok in Hinst.
  apply bind_Ok in H. destruct H as (u3 & _ & H).
  apply bind_Ok in H. destruct H as (files & Hfiles & H).
  apply bind_Ok in H. destruct H as (n & Hn & H).
  apply bind_Ok in H. destruct H as (u4 & Hloop & H).
  apply bind_Ok in H. destruct H as (vars & Hvars & H).
  apply bind_Ok in H. destruct H as (k & Hk & H).
  apply bind_Ok in H. destruct H as (u5 & Hvloop & H).
  injection H as <-. split; [reflexivity|].
  split; [now inversion Hmeta|]. split; [exact Hinst|]. split.
  - exists files, n. split; [exact Hfiles|]. split; [exact Hn|].
    intros i Hi. apply check_file_Ok with (file := file).
    exact (guarded_loop_Ok _ _ _ Hloop i Hi).
  - exists vars, k. split; [exact Hvars|]. split; [exact Hk|].
    intros i Hi. apply (guarded_loop_Ok _ _ _ Hvloop i) in Hi.
    now apply probes_Ok in Hi.
Qed.

Lemma verify_accepts_only_complete_manifests_witness :
  exists vars k,
    item vanilla "variables" = Ok vars /\ len vars = Ok k /\
    forall i, (i < k)%nat ->
      Forall (fun key => exists v,
                (v0 <- ApiImages.variable vanilla i ;; item v0 key) = Ok v)
             ApiImages.variable_keys.
Proof.
  apply (verify_accepts_only_complete_manifests vanilla "vanilla.json" true).
  reflexivity.
Defined.

(** ** What [_verify] raises *)

Lemma bind_Raise {A B : Type} (r : result A) (k : A -> result B) (e : exn) :
  bind r k = Raise e -> r = Raise e \/ exists a, r = Ok a /\ k a = Raise e.
Proof.
  destruct r as [a|e']; simpl; intros H; [right; eauto | left; now injection H as ->].
Qed.

Lemma for_each_Raise {A : Type} (body : A -> result unit) (l : list A) (e : exn) :
  for_each l body = Raise e ->
  exists pre a post,
    l = (pre ++ a :: post)%list /\ Forall (fun x => body x = Ok tt) pre /\
    body a = Raise e.
Proof.
  induction l as [|x l IH]; simpl; [discriminate|].
  destruct (body x) as [[]|e'] eqn:E; simpl; intros H.
  - destruct (IH H) as (pre & a & post & -> & Hpre & Ha).
    exists (x :: pre), a, post. repeat split; [constructor|]; assumption.
  - injection H as ->. exists [], x, l. repeat split; [constructor | exact E].
Qed.

Lemma bind_raises_Exception {A B : Type} (r : result A) (k : A -> result B) :
  (forall e, r = Raise e -> is_Exception e = true) ->
  (forall a e, k a = Raise e -> is_Exception e = true) ->
  forall e, bind r k = Raise e -> is_Exception e = true.
Proof.
  intros Hr Hk e H. apply bind_Raise in H. destruct H as [H | (a & _ & H)]; eauto.
Qed.

Lemma item_raises_Exception (v : json) (k : string) (e : exn) :
  item v k = Raise e -> is_Exception e = true.
Proof.
  apply subscript_raises_Exception.
Qed.

Lemma probe_Raise (file : string) (expr : result json) (key : keyname) (x : exn) :
  (forall e, expr = Raise e -> is_Exception e = true) ->
  ApiImages.probe file expr key = Raise x ->
  x = ParseError file (MissingKey key) /\ forall v, expr <> Ok v.
Proof.
  unfold ApiImages.probe, try_except, ApiImages._exception. intros Hexc.
  destruct expr as [v|e]; simpl; [discriminate|].
  rewrite (Hexc e eq_refl). intros H. injection H as <-.
  split; [reflexivity | discriminate].
Qed.

Lemma probes_Raise (file : string) (expr : string -> result json)
  (keys : list string) (x : exn) :
  (forall key e, expr key = Raise e -> is_Exception e = true) ->
  for_each keys (fun key => ApiImages.probe file (expr key) (Key key)) = Raise x ->
  exists pre k post,
    keys = (pre ++ k :: post)%list /\
    Forall (fun key => exists v, expr key = Ok v) pre /\
    (forall v, expr k <> Ok v) /\
    x = ParseError file (MissingKey (Key k)).
Proof.
  intros Hexc H. apply for_each_Raise in H.
  destruct H as (pre & k & post & -> & Hpre & Hk).
  apply probe_Raise in Hk; [|apply Hexc]. destruct Hk as [-> Hk].
  exists pre, k, post. repeat split; try assumption.
  eapply Forall_impl; [|exact Hpre]. intros key Hkey. eapply probe_Ok, Hkey.
Qed.

Lemma len_Raise (v : json) (e : exn) : len v = Raise e -> e = TypeError.
Proof.
  destruct v; simpl; intros H; try discriminate H; now injection H as <-.
Qed.

Lemma guarded_loop_Raise (n : nat) (body : nat -> result unit) (e : exn) :
  (if (0 <? n)%nat then for_each (seq 0 n) body else Ok tt) = Raise e ->
  exists i, (i < n)%nat /\ body i = Raise e.
Proof.
  destruct (0 <? n)%nat; [|discriminate]. intros H.
  apply for_each_Raise in H. destruct H as (pre & i & post & Hs & _ & Hi).
  exists i. split; [|exact Hi].
  assert (Hin : In i (seq 0 n)) by (rewrite Hs; apply in_elt).
  apply in_seq in Hin. lia.
Qed.

Lemma config_file_raises_Exception (image : json) (i : nat) (key : string) (e : exn) :
  (f <- ApiImages.config_file image i ;; item f key) = Raise e ->
  is_Exception e = true.
Proof.
  unfold ApiImages.config_file, ApiImages.config_files.
  repeat (apply bind_raises_Exception; [|intros ?]);
    first [apply item_raises_Exception | apply subscript_raises_Exception].
Qed.

Lemma check_file_Raise (image : json) (file : string) (i : nat) (e : exn) :
  ApiImages.check_file image file i = Raise e ->
  (exists k, In k ApiImages.file_keys /\ e = ParseError file (MissingKey (Key k))) \/
  e = TypeError \/
  (exists fn k, In k ApiImages.environment_keys /\
                (f <- ApiImages.config_file image i ;; item f "filename") = Ok fn /\
                e = ParseError file (MissingKey (EnvKey fn k))).
Proof.
  unfold ApiImages.check_file. intros H.
  apply bind_Raise in H. destruct H as [H | ([] & Hkeys & H)].
  { left. apply probes_Raise in H; [|apply config_file_raises_Exception].
    destruct H as (pre & k & post & Hk & _ & _ & ->).
    exists k. split; [rewrite Hk; apply in_elt | reflexivity]. }
  apply probes_Ok in Hkeys.
  assert (Hfn : exists fn, (f <- ApiImages.config_file image i ;; item f "filename") = Ok fn)
    by now inversion Hkeys.
  assert (Henv : exists env, ApiImages.file_environment image i = Ok env).
  { inversion_clear Hkeys as [|? ? _ Hk]. inversion_clear Hk as [|? ? _ Hk'].
    now inversion_clear Hk'. }
  destruct Hfn as [fn Hfn]. destruct Henv as [env Henv].
  apply bind_Raise in H. destruct H as [H | (env' & _ & H)]; [congruence|].
  apply bind_Raise in H. destruct H as [H | (n & _ & H)].
  { right. left. now apply len_Raise in H. }
  right. right.
  apply for_each_Raise in H. destruct H as (_ & x & _ & _ & _ & H).
  apply for_each_Raise in H. destruct H as (pre & k & post & Hk & _ & H).
  exists fn, k. split; [rewrite Hk; apply in_elt|]. split; [exact Hfn|].
  cbv beta in H. rewrite Hfn, Henv in H. unfold try_except in H. simpl in H.
  destruct (subscript env (IInt x)) as [m|e1] eqn:E1; simpl in H.
  - destruct (item m k) as [v|e2] eqn:E2; simpl in H; [discriminate|].
    rewrite (item_raises_Exception _ _ _ E2) in H. now injection H as <-.
  - rewrite (subscript_raises_Exception _ _ _ E1) in H. now injection H as <-.
Qed.

Lemma check_uid_Raise {L : StrLower} (image : json) (file : string) (u : json) (e : exn) :
  item image "uid" = Ok u ->
  ApiImages.check_uid image file = Raise e ->
  (e = ParseError file UidNotLowercase /\ exists s, u = JStr s /\ s <> lower s) \/
  (e = AttributeError /\ forall s, u <> JStr s).
Proof.
  unfold ApiImages.check_uid. intros ->. simpl.
  destruct u; try (intros H; injection H as <-; right; split; [reflexivity | discriminate]).
  destruct (String.eqb s (lower s)) eqn:E; simpl; [discriminate|].
  intros H. injection H as <-. left. split; [reflexivity|].
  exists s. split; [reflexivity|]. now apply String.eqb_neq.
Qed.

Lemma for_each_all_Ok {A : Type} (body : A -> result unit) (l : list A) :
  Forall (fun x => body x = Ok tt) l -> for_each l body = Ok tt.
Proof.
  induction 1 as [|x l Hx Hl IH]; simpl; [reflexivity|]. now rewrite Hx.
Qed.

Lemma probes_all_Ok (file : string) (expr : string -> result json) (keys : list string) :
  Forall (fun key => exists v, expr key = Ok v) keys ->
  for_each keys (fun key => ApiImages.probe file (expr key) (Key key)) = Ok tt.
Proof.
  intros H. apply for_each_all_Ok. eapply Forall_impl; [|exact H].
  intros key [v Hv]. unfold ApiImages.probe. now rewrite Hv.
Qed.

(** Every way in which [_verify] ends with an exception. *)
Lemma _verify_Raise {L : StrLower} (image : json) (file : string) (e : exn) :
  ApiImages._verify image file = Raise e ->
  (exists pre k post,
      ApiImages.top_level_keys = (pre ++ k :: post)%list /\
      Forall (fun key => exists v, item image key = Ok v) pre /\
      (forall v, item image k <> Ok v) /\
      e = ParseError file (MissingKey (Key k))) \/
  (Forall (fun key => exists v, item image key = Ok v) ApiImages.top_level_keys /\
   ((e = ParseError file UidNotLowercase /\
     exists s, item image "uid" = Ok (JStr s) /\ s <> lower s) \/
    (e = AttributeError /\
     exists u, item image "uid" = Ok u /\ forall s, u <> JStr s) \/
    (e = ParseError file (MissingKey (Key "api_version")) /\
     forall v, (m <- item image "meta" ;; item m "api_version") <> Ok v) \/
    (exists k, In k ApiImages.installation_keys /\
               e = ParseError file (MissingKey (Key k))) \/
    (exists k, In k ApiImages.file_keys /\
               e = ParseError file (MissingKey (Key k))) \/
    (exists fn k, In k ApiImages.environment_keys /\
                  e = ParseError file (MissingKey (EnvKey fn k))) \/
    (exists k, In k ApiImages.variable_keys /\
               e = ParseError file (MissingKey (Key k))) \/
    e = TypeError)).
Proof.
  unfold ApiImages._verify. intros H.
  apply bind_Raise in H. destruct H as [H | ([] & Htop & H)].
  { left. apply probes_Raise in H; [exact H | intros key; apply item_raises_Exception]. }
  right. apply probes_Ok in Htop. split; [exact Htop|].
  assert (Huid : exists u, item image "uid" = Ok u).
  { inversion_clear Htop as [|? ? _ Ht]. now inversion_clear Ht. }
  destruct Huid as [u Huid].
  apply bind_Raise in H. destruct H as [H | (u1 & _ & H)].
  { destruct (check_uid_Raise image file u e Huid H) as [(-> & s & -> & Hs) | (-> & Hs)].
    - left. split; [reflexivity|]. exists s. auto.
    - right. left. split; [reflexivity|]. exists u. auto. }
  apply bind_Raise in H. destruct H as [H | ([] & _ & H)].
  { right. right. left.
    apply probes_Raise in H.
    - destruct H as (pre & k & post & Hk & _ & Hmiss & ->).
      destruct pre as [|? [|]]; try discriminate Hk. injection Hk as <- _. auto.
    - intros key e'. apply bind_raises_Exception; [|intros ?]; apply item_raises_Exception. }
  apply bind_Raise in H. destruct H as [H | ([] & _ & H)].
  { do 3 right. left.
    apply probes_Raise in H.
    - destruct H as (pre & k & post & Hk & _ & _ & ->).
      exists k. split; [rewrite Hk; apply in_elt | reflexivity].
    - intros key e'. apply bind_raises_Exception; [|intros ?]; apply item_raises_Exception. }
  apply bind_Raise in H. destruct H as [H | ([] & Hprobe & H)].
  { do 3 right. left. apply probe_Raise in H.
    - destruct H as [-> _]. exists "script". split; [simpl; auto | reflexivity].
    - unfold ApiImages.config_files. intros e'.
      apply bind_raises_Exception; [|intros ?]; apply item_raises_Exception. }
  apply probe_Ok in Hprobe. destruct Hprobe as [files Hfiles].
  apply bind_Raise in H. destruct H as [H | (files' & _ & H)]; [congruence|].
  apply bind_Raise in H. destruct H as [H | (n & _ & H)].
  { do 7 right. now apply len_Raise in H. }
  apply bind_Raise in H. destruct H as [H | (u2 & _ & H)].
  { apply guarded_loop_Raise in H. destruct H as (i & _ & H).
    apply check_file_Raise in H.
    destruct H as [(k & Hk & ->) | [-> | (fn & k & Hk & _ & ->)]].
    - do 4 right. left. eauto.
    - do 7 right. reflexivity.
    - do 5 right. left. eauto. }
  assert (Hvars : exists vars, item image "variables" = Ok vars).
  { do 9 (inversion_clear Htop as [|? ? _ Ht]; rename Ht into Htop).
    now inversion_clear Htop. }
  destruct Hvars as [vars Hvars].
  apply bind_Raise in H. destruct H as [H | (vars' & _ & H)]; [congruence|].
  apply bind_Raise in H. destruct H as [H | (k & _ & H)].
  { do 7 right. now apply len_Raise in H. }
  apply bind_Raise in H. destruct H as [H | (u3 & _ & H)]; [|discriminate H].
  apply guarded_loop_Raise in H. destruct H as (i & _ & H).
  do 6 right. left.
  apply probes_Raise in H.
  - destruct H as (pre & key & post & Hk & _ & _ & ->).
    exists key. split; [rewrite Hk; apply in_elt | reflexivity].
  - intros key e'. unfold ApiImages.variable.
    repeat (apply bind_raises_Exception; [|intros ?]);
      first [apply item_raises_Exception | apply subscript_raises_Exception].
Qed.

Lemma _verify_Raise_kinds {L : StrLower} (image : json) (file : string) (e : exn) :
  ApiImages._verify image file = Raise e ->
  (exists what, e = ParseError file what) \/ e = AttributeError \/ e = TypeError.
Proof.
  intros H. apply _verify_Raise in H.
  destruct H as [(pre & k & post & _ & _ & _ & ->) | (_ & H)]; [left; eauto|].
  destruct H as [(-> & _) | [(-> & Hu) | [(-> & _) | [(k & _ & ->) | [(k & _ & ->)
               | [(fn & k & _ & ->) | [(k & _ & ->) | ->]]]]]]]; eauto.
Qed.

(** X2. [_verify] ends in three ways only besides returning [True]: a
    [ParseError] that names the file it was given, an [AttributeError]
    when [uid] is there but is not a string, or a [TypeError] from [len]
    of a value that has no length.  No [KeyError] or [IndexError] of a
    lookup leaves it. *)
Theorem verify_raises_only_its_own_errors {L : StrLower} (image : json) (file : string) (e : exn) :
  ApiImages._verify image file = Raise e ->
  (exists what, e = ParseError file what) \/
  (e = AttributeError /\ exists u, item image "uid" = Ok u /\ forall s, u <> JStr s) \/
  e = TypeError.
Proof.
  intros H. apply _verify_Raise in H.
  destruct H as [(pre & k & post & _ & _ & _ & ->) | (_ & H)]; [left; eauto|].
  destruct H as [(-> & _) | [(-> & Hu) | [(-> & _) | [(k & _ & ->) | [(k & _ & ->)
               | [(fn & k & _ & ->) | [(k & _ & ->) | ->]]]]]]]; eauto.
Qed.

Lemma verify_raises_only_its_own_errors_witness :
  (exists what, ParseError "broken.json" (MissingKey (Key "author"))
                = ParseError "broken.json" what) \/
  (ParseError "broken.json" (MissingKey (Key "author")) = AttributeError /\
   exists u, item no_author "uid" = Ok u /\ forall s, u <> JStr s) \/
  ParseError "broken.json" (MissingKey (Key "author")) = TypeError.
Proof.
  apply (verify_raises_only_its_own_errors no_author "broken.json").
  reflexivity.
Defined.

Lemma split_at_first_missing (image : json) (keys : list string) :
  (exists key, In key keys /\ forall v, item image key <> Ok v) ->
  exists pre k post,
    keys = (pre ++ k :: post)%list /\
    Forall (fun key => exists v, item image key = Ok v) pre /\
    (forall v, item image k <> Ok v).
Proof.
  induction keys as [|k keys IH]; intros (key & Hin & Hmiss); [destruct Hin|].
  destruct (item image k) as [v|e] eqn:E.
  - destruct Hin as [<- | Hin]; [now destruct (Hmiss v)|].
    destruct IH as (pre & k' & post & -> & Hpre & Hk'); [eauto|].
    exists (k :: pre), k', post. repeat split; [constructor; eauto | exact Hk'].
  - exists [], k, keys. repeat split; [constructor | congruence].
Qed.

(** X3. When one or more of the twelve top-level keys are missing,
    [_verify] raises a [ParseError] that names the file and the missing key
    that comes first in the order of the tuple; the keys before it are
    there. *)
Theorem verify_reports_the_first_missing_top_level_key {L : StrLower} (image : json) (file : string) :
  (exists key, In key ApiImages.top_level_keys /\ forall v, item image key <> Ok v) ->
  exists pre k post,
    ApiImages.top_level_keys = (pre ++ k :: post)%list /\
    Forall (fun key => exists v, item image key = Ok v) pre /\
    (forall v, item image k <> Ok v) /\
    ApiImages._verify image file = Raise (ParseError file (MissingKey (Key k))).
Proof.
  intros H. apply split_at_first_missing in H.
  destruct H as (pre & k & post & Hk & Hpre & Hmiss).
  exists pre, k, post. repeat split; try assumption.
  now apply (first_missing_top_level_key_is_named image file pre k post).
Qed.

Lemma verify_reports_the_first_missing_top_level_key_witness :
  exists pre k post,
    ApiImages.top_level_keys = (pre ++ k :: post)%list /\
    Forall (fun key => exists v, item (del_quiet "user" no_author) key = Ok v) pre /\
    (forall v, item (del_quiet "user" no_author) k <> Ok v) /\
    ApiImages._verify (del_quiet "user" no_author) "broken.json"
    = Raise (ParseError "broken.json" (MissingKey (Key k))).
Proof.
  apply (verify_reports_the_first_missing_top_level_key
           (del_quiet "user" no_author) "broken.json").
  exists "user". split; [simpl; tauto | discriminate].
Defined.

(** X4. With the twelve top-level keys in place, the uid decides before
    anything nested is looked at: a string that differs from its lowercase
    form ends in [ParseError ... uid must be lowercase], and a uid that is
    not a string ends in [AttributeError], which no handler of [_verify]
    catches. *)
Theorem uid_is_checked_before_nested_keys {L : StrLower} (image : json) (file : string) (uid : json) :
  Forall (fun key => exists v, item image key = Ok v) ApiImages.top_level_keys ->
  item image "uid" = Ok uid ->
  (forall s, uid = JStr s -> s <> lower s ->
     ApiImages._verify image file = Raise (ParseError file UidNotLowercase)) /\
  ((forall s, uid <> JStr s) ->
     ApiImages._verify image file = Raise AttributeError).
Proof.
  intros Htop Huid. unfold ApiImages._verify.
  rewrite (probes_all_Ok file (item image) _ Htop). simpl bind at 1.
  unfold ApiImages.check_uid. rewrite Huid. split.
  - intros s -> Hs. simpl. apply String.eqb_neq in Hs. now rewrite Hs.
  - intros Hs. destruct uid; try reflexivity. now destruct (Hs s).
Qed.

Lemma uid_is_checked_before_nested_keys_witness :
  (forall s, JStr "Default-Vanilla" = JStr s -> s <> lower s ->
     ApiImages._verify (JDict (sample_items "Default-Vanilla" 2 JNull)) "v.json"
     = Raise (ParseError "v.json" UidNotLowercase)) /\
  ((forall s, JStr "Default-Vanilla" <> JStr s) ->
     ApiImages._verify (JDict (sample_items "Default-Vanilla" 2 JNull)) "v.json"
     = Raise AttributeError).
Proof.
  apply (uid_is_checked_before_nested_keys
           (JDict (sample_items "Default-Vanilla" 2 JNull)) "v.json").
  - repeat constructor; eexists; reflexivity.
  - reflexivity.
Defined.

(** The examples' [lower] beyond ASCII: U+00DC, capital U with diaeresis,
    goes to U+00FC, and a uid that starts with it is rejected. *)
Example uid_with_a_capital_beyond_ascii_is_rejected :
  let capital := String (ascii_of_nat 220) "ber" in
  let small := String (ascii_of_nat 252) "ber" in
  lower capital = small /\ lower small = small /\
  ApiImages._verify (JDict (sample_items capital 2 JNull)) "u.json"
  = Raise (ParseError "u.json" UidNotLowercase).
Proof.
  repeat split.
Qed.

(** ** What a load raises *)

Lemma subscript_Raise (v : json) (i : index) (e : exn) :
  subscript v i = Raise e -> e = KeyError i \/ e = TypeError \/ e = IndexError.
Proof.
  destruct v, i; simpl; intros H;
    repeat match type of H with
           | match ?x with _ => _ end = _ => destruct x
           end;
    try discriminate H; injection H as <-; auto.
Qed.

Lemma check_version_Raise (image : json) (file : string) (e : exn) :
  ApiImages.check_version image file = Raise e ->
  (exists v, (m <- item image "meta" ;; item m "api_version") = Ok v /\
             eq_int v ApiImages.API_VERSION = false /\
             e = ImageAPIMismatch file v ApiImages.API_VERSION) \/
  (exists cause, (forall v, (m <- item image "meta" ;; item m "api_version") <> Ok v) /\
                 e = ReadError file " with err " cause).
Proof.
  unfold ApiImages.check_version.
  destruct (item image "meta") as [meta|e0] eqn:Em; simpl.
  - destruct (item meta "api_version") as [v|e1] eqn:Ev; simpl.
    + destruct (eq_int v ApiImages.API_VERSION) eqn:E; simpl; [discriminate|].
      intros H. injection H as <-. left. exists v. auto.
    + intros H. right. exists e1. split; [discriminate|].
      destruct (subscript_Raise _ _ _ Ev) as [-> | [-> | ->]]; simpl in H;
        now injection H as <-.
  - intros H. right. exists e0. split; [discriminate|].
    destruct (subscript_Raise _ _ _ Em) as [-> | [-> | ->]]; simpl in H;
      now injection H as <-.
Qed.

Lemma read_file_Raise {L : StrLower} (f : entry) (e : exn) :
  ApiImages.read_file f = Raise e ->
  e = OSError \/
  (exists wording cause, e = ReadError (fname f) wording cause) \/
  (exists v, e = ImageAPIMismatch (fname f) v ApiImages.API_VERSION) \/
  (exists what, e = ParseError (fname f) what) \/
  e = AttributeError \/ e = TypeError \/ is_Exception e = false.
Proof.
  unfold ApiImages.read_file.
  destruct (fcontent f) as [|cause|image].
  - intros H. injection H as <-. auto.
  - unfold try_except. destruct (is_Exception cause) eqn:E; intros H; injection H as <-.
    + right. left. eauto.
    + do 6 right. exact E.
  - intros H. apply bind_Raise in H. destruct H as [H | (u & _ & H)].
    + apply check_version_Raise in H.
      destruct H as [(v & _ & _ & ->) | (cause & _ & ->)]; eauto 7.
    + apply bind_Raise in H. destruct H as [H | (b & _ & H)]; [|discriminate H].
      apply _verify_Raise_kinds in H.
      destruct H as [[what ->] | [-> | ->]]; eauto 8.
Qed.

(** X5. [read_images] raises [ImagesNotPresent] when there is no
    [default] subtree, and otherwise the exception of one [.json] file of
    the walk: [OSError] of [open], [ReadError], [ImageAPIMismatch] or
    [ParseError], each naming that file, or the [AttributeError] or
    [TypeError] that [_verify] lets through (or whatever non-[Exception]
    the parser raised). *)
Theorem load_errors_name_a_json_file {L : StrLower} (fs : FS) (self self' : Images) (e : exn) :
  ApiImages.read_images fs self = (Raise e, self') ->
  (e = ImagesNotPresent "Default images not present" /\
   isdir_default fs = false /\ self' = self) \/
  (exists f,
      In f (json_files (walk fs)) /\ ApiImages.read_file f = Raise e /\
      (e = OSError \/
       (exists wording cause, e = ReadError (fname f) wording cause) \/
       (exists v, e = ImageAPIMismatch (fname f) v ApiImages.API_VERSION) \/
       (exists what, e = ParseError (fname f) what) \/
       e = AttributeError \/ e = TypeError \/ is_Exception e = false)).
Proof.
  unfold ApiImages.read_images, ApiImages.check_if_present.
  destruct (isdir_default fs) eqn:Hdir; simpl; intros H.
  - right. apply read_loop_spec in H.
    destruct H as [(H & _) | (e' & pre & f & post & imgs & He & Hj & _ & Hf & _)];
      [discriminate H|].
    injection He as <-. exists f. split; [rewrite Hj; apply in_elt|].
    split; [exact Hf | now apply read_file_Raise].
  - injection H as <- <-. left. auto.
Qed.

Lemma load_errors_name_a_json_file_witness :
  (ParseError "broken.json" (MissingKey (Key "author"))
   = ImagesNotPresent "Default images not present" /\
   isdir_default second_file_broken = false /\
   {| images := [vanilla] |} = ApiImages.__init__) \/
  (exists f,
      In f (json_files (walk second_file_broken)) /\
      ApiImages.read_file f = Raise (ParseError "broken.json" (MissingKey (Key "author"))) /\
      (ParseError "broken.json" (MissingKey (Key "author")) = OSError \/
       (exists wording cause,
           ParseError "broken.json" (MissingKey (Key "author"))
           = ReadError (fname f) wording cause) \/
       (exists v, ParseError "broken.json" (MissingKey (Key "author"))
                  = ImageAPIMismatch (fname f) v ApiImages.API_VERSION) \/
       (exists what, ParseError "broken.json" (MissingKey (Key "author"))
                     = ParseError (fname f) what) \/
       ParseError "broken.json" (MissingKey (Key "author")) = AttributeError \/
       ParseError "broken.json" (MissingKey (Key "author")) = TypeError \/
       is_Exception (ParseError "broken.json" (MissingKey (Key "author"))) = false)).
Proof.
  apply (load_errors_name_a_json_file second_file_broken ApiImages.__init__
           {| images := [vanilla] |}).
  reflexivity.
Defined.

(** X6. The two probes of [_verify] for [meta] and [meta.api_version] never
    fire in a load: a manifest without [meta.api_version] is stopped by the
    version test, which runs first and reports it as a [ReadError] naming
    the file; no load reports either key in a [ParseError]. *)
Theorem missing_version_is_a_ReadError {L : StrLower} (f : entry) (image : json) :
  fcontent f = Json image ->
  ((forall v, (m <- item image "meta" ;; item m "api_version") <> Ok v) ->
   exists cause, ApiImages.read_file f = Raise (ReadError (fname f) " with err " cause)) /\
  (forall file k,
      ApiImages.read_file f = Raise (ParseError file (MissingKey (Key k))) ->
      k <> "meta" /\ k <> "api_version").
Proof.
  intros Hc. unfold ApiImages.read_file. rewrite Hc. split.
  - intros Hmiss.
    destruct (ApiImages.check_version image (fname f)) as [u|e] eqn:E.
    + apply check_version_Ok in E. destruct E as (v & Hv & _). now destruct (Hmiss v).
    + apply check_version_Raise in E.
      destruct E as [(v & Hv & _) | (cause & _ & ->)]; [now destruct (Hmiss v)|].
      exists cause. reflexivity.
  - intros file k H.
    apply bind_Raise in H. destruct H as [H | (u & Hver & H)].
    { apply check_version_Raise in H.
      destruct H as [(v & _ & _ & H) | (cause & _ & H)]; discriminate H. }
    apply check_version_Ok in Hver. destruct Hver as (v & Hv & _).
    apply bind_Raise in H. destruct H as [H | (b & _ & H)]; [|discriminate H].
    apply _verify_Raise in H.
    destruct H as [(pre & k' & post & Hk & _ & Hmiss & H) | (_ & H)].
    + injection H as _ <-. split; intros ->.
      * apply bind_Ok in Hv. destruct Hv as (meta & Hmeta & _). now destruct (Hmiss meta).
      * assert (Hin : In "api_version" ApiImages.top_level_keys)
          by (rewrite Hk; apply in_elt).
        simpl in Hin. repeat destruct Hin as [Hin | Hin]; try discriminate Hin.
        exact Hin.
    + destruct H as [(H & _) | [(H & _) | [(_ & Hmiss) | [(k' & Hin & H) | [(k' & Hin & H)
                   | [(fn & k' & _ & H) | [(k' & Hin & H) | H]]]]]]];
        try discriminate H; try (now destruct (Hmiss v));
        injection H as _ <-; simpl in Hin;
        split; intros ->; repeat destruct Hin as [Hin | Hin];
        try discriminate Hin; exact Hin.
Qed.

Lemma missing_version_is_a_ReadError_witness :
  ((forall v, (m <- item (del_quiet "meta" vanilla) "meta" ;; item m "api_version") <> Ok v) ->
   exists cause,
     ApiImages.read_file (mkEntry "v.json" (Json (del_quiet "meta" vanilla)))
     = Raise (ReadError "v.json" " with err " cause)) /\
  (forall file k,
      ApiImages.read_file (mkEntry "v.json" (Json (del_quiet "meta" vanilla)))
      = Raise (ParseError file (MissingKey (Key k))) ->
      k <> "meta" /\ k <> "api_version").
Proof.
  apply (missing_version_is_a_ReadError
           (mkEntry "v.json" (Json (del_quiet "meta" vanilla)))
           (del_quiet "meta" vanilla)).
  reflexivity.
Defined.

(** ** What a load depends on *)

Lemma read_loop_json_files {L : StrLower} (files : list entry) (self : Images) :
  ApiImages.read_loop files self = ApiImages.read_loop (json_files files) self.
Proof.
  revert self. induction files as [|f rest IH]; intros self; [reflexivity|].
  unfold json_files. simpl. fold (json_files rest).
  destruct (endswith (fname f) ".json") eqn:E; simpl.
  - rewrite E. destruct (ApiImages.read_file f); [apply IH | reflexivity].
  - apply IH.
Qed.

(** X7. A load depends on the [.json] files of the walk and on nothing
    else: two disks that both have a [default] subtree and show the same
    [.json] files in the same order give the same outcome and the same
    registry, whatever other files lie between them (readable or not) and
    whatever the registry held before. *)
Theorem load_depends_on_json_files_only {L : StrLower} (fs fs' : FS) (self self' : Images) :
  isdir_default fs = true -> isdir_default fs' = true ->
  json_files (walk fs) = json_files (walk fs') ->
  ApiImages.read_images fs self = ApiImages.read_images fs' self'.
Proof.
  intros H1 H2 Hj. unfold ApiImages.read_images, ApiImages.check_if_present.
  rewrite H1, H2. simpl.
  rewrite (read_loop_json_files (walk fs)), (read_loop_json_files (walk fs')).
  now rewrite Hj.
Qed.

Lemma load_depends_on_json_files_only_witness :
  ApiImages.read_images two_manifests ApiImages.__init__
  = ApiImages.read_images
      (disk_with [mkEntry "vanilla.json" (Json vanilla); mkEntry "paper.json" (Json paper)])
      {| images := [paper] |}.
Proof.
  apply (load_depends_on_json_files_only two_manifests
           (disk_with [mkEntry "vanilla.json" (Json vanilla);
                       mkEntry "paper.json" (Json paper)])
           ApiImages.__init__ {| images := [paper] |}); reflexivity.
Defined.

(** ** Lookup *)

Lemma find_first_match {A : Type} (p : A -> bool) (pre : list A) (m : A) (post : list A) :
  Forall (fun a => p a = false) pre -> p m = true ->
  find p (pre ++ m :: post) = Some m.
Proof.
  induction 1 as [|a pre Ha Hpre IH]; simpl; intros Hm.
  - now rewrite Hm.
  - rewrite Ha. exact (IH Hm).
Qed.

(** X8. When several registered manifests have the uid asked for (the load
    does not exclude it), [get_image] returns the one that was loaded
    first. *)
Theorem get_image_returns_the_first_match {L : StrLower}
  (self : Images) (x : string) (pre : list json) (m : json) (post : list json) :
  reachable self ->
  images self = (pre ++ m :: post)%list ->
  Forall (fun m' => item m' "uid" <> Ok (JStr x)) pre ->
  item m "uid" = Ok (JStr x) ->
  ApiImages.get_image self x = (Ok (Some m), self).
Proof.
  intros Hreach Himgs Hpre Hm.
  assert (Hvalid : Forall valid_manifest (images self)) by now apply registry_invariant.
  unfold ApiImages.get_image. rewrite _check_if_read_nonempty.
  - simpl. rewrite (first_with_uid_find x _ Hvalid), Himgs.
    rewrite (find_first_match (has_uid x) pre m post); [reflexivity | | now apply has_uid_true].
    eapply Forall_impl; [|exact Hpre]. intros m' Hm'.
    destruct (has_uid x m') eqn:E; [|reflexivity].
    apply has_uid_true in E. contradiction.
  - rewrite Himgs. now destruct pre.
Qed.

Lemma get_image_returns_the_first_match_witness :
  ApiImages.get_image {| images := [paper; vanilla; vanilla] |} "default-vanilla-minecraft"
  = (Ok (Some vanilla), {| images := [paper; vanilla; vanilla] |}).
Proof.
  apply (get_image_returns_the_first_match
           {| images := [paper; vanilla; vanilla] |} "default-vanilla-minecraft"
           [paper] vanilla [vanilla]).
  - change (reachable
              (snd (ApiImages.read_images
                      (disk_with [mkEntry "paper.json" (Json paper);
                                  mkEntry "vanilla.json" (Json vanilla);
                                  mkEntry "copy.json" (Json vanilla)])
                      ApiImages.__init__))).
    apply reach_read_images, reach_init.
  - reflexivity.
  - constructor; [discriminate | constructor].
  - reflexivity.
Defined.

(** X9. Lookup is exact while every registered uid is lowercase: asking
    for a uid that has an uppercase letter finds nothing, whatever is
    registered. *)
Theorem get_image_of_a_mixed_case_uid_finds_nothing {L : StrLower} (self : Images) (x : string) :
  reachable self -> images self <> [] -> x <> lower x ->
  ApiImages.get_image self x = (Ok None, self).
Proof.
  intros Hreach Hne Hx.
  assert (Hvalid : Forall valid_manifest (images self)) by now apply registry_invariant.
  unfold ApiImages.get_image. rewrite (_check_if_read_nonempty self Hne). simpl.
  rewrite (first_with_uid_find x _ Hvalid).
  destruct (find (has_uid x) (images self)) as [m|] eqn:E; [|reflexivity].
  apply find_some in E. destruct E as [Hin Hu]. apply has_uid_true in Hu.
  rewrite Forall_forall in Hvalid. destruct (Hvalid m Hin) as (_ & _ & s & Hs & Hlow).
  rewrite Hu in Hs. injection Hs as <-. contradiction.
Qed.

Lemma get_image_of_a_mixed_case_uid_finds_nothing_witness :
  ApiImages.get_image (snd (ApiImages.read_images two_manifests ApiImages.__init__))
    "Default-Vanilla-Minecraft"
  = (Ok None, snd (ApiImages.read_images two_manifests ApiImages.__init__)).
Proof.
  apply (get_image_of_a_mixed_case_uid_finds_nothing
           (snd (ApiImages.read_images two_manifests ApiImages.__init__))
           "Default-Vanilla-Minecraft").
  - apply reach_read_images, reach_init.
  - vm_compute. discriminate.
  - vm_compute. discriminate.
Defined.

(** ** The rows of [pretty] *)

Lemma lookup_filter_None (p : string * json -> bool) (k : string)
  (items : list (string * json)) :
  lookup k items = None -> lookup k (filter p items) = None.
Proof.
  induction items as [|[k' v] items IH]; simpl; [reflexivity|].
  destruct (String.eqb k k') eqn:E; [discriminate|]. intros H.
  destruct (p (k', v)); simpl; [rewrite E|]; auto.
Qed.

Lemma lookup_del_same (key : string) (items : list (string * json)) :
  lookup key (filter (fun kv => negb (String.eqb key (fst kv))) items) = None.
Proof.
  induction items as [|[k' v] items IH]; simpl; [reflexivity|].
  destruct (String.eqb key k') eqn:E; simpl; [exact IH | now rewrite E].
Qed.

Lemma lookup_del_other (key k : string) (items : list (string * json)) :
  k <> key ->
  lookup k (filter (fun kv => negb (String.eqb key (fst kv))) items) = lookup k items.
Proof.
  intros Hk. induction items as [|[k' v] items IH]; simpl; [reflexivity|].
  destruct (String.eqb key k') eqn:E; simpl.
  - apply String.eqb_eq in E. subst k'.
    apply String.eqb_neq in Hk. now rewrite Hk.
  - now rewrite IH.
Qed.

Lemma strip_dict (strip_keys : list string) (items : list (string * json)) :
  exists items',
    fold_left (fun d key => del_quiet key d) strip_keys (JDict items) = JDict items' /\
    (forall k, In k strip_keys -> lookup k items' = None) /\
    (forall k, ~ In k strip_keys -> lookup k items' = lookup k items) /\
    (forall k, lookup k items = None -> lookup k items' = None).
Proof.
  revert items. induction strip_keys as [|key keys IH]; intros items; simpl.
  - exists items. repeat split; auto. intros k [].
  - destruct (IH (filter (fun kv => negb (String.eqb key (fst kv))) items))
      as (items' & -> & Hin & Hout & Hnone).
    exists items'. split; [reflexivity|]. repeat split.
    + intros k [<- | Hk]; [|auto]. apply Hnone, lookup_del_same.
    + intros k Hk. rewrite Hout by tauto. apply lookup_del_other.
      intros ->. apply Hk. now left.
    + intros k Hk. now apply Hnone, lookup_filter_None.
Qed.

Lemma valid_manifest_is_dict {L : StrLower} (m : json) :
  valid_manifest m -> exists items, m = JDict items.
Proof.
  intros (_ & _ & s & Hs & _). destruct m; try discriminate Hs. eauto.
Qed.

(** X10. On a registry that holds manifests, [pretty] of [api/images.py]
    hands [tabulate] one row per manifest, in load order; a row has none of
    the eight keys that are deleted and has every other key of its
    manifest with the value it has there (uid, name, author and
    default_image among them); the registry is not touched. *)
Theorem pretty_rows {L : StrLower} (self : Images) :
  reachable self -> images self <> [] ->
  exists rows,
    ApiImages.pretty self = (Ok rows, self) /\
    Forall2 (fun m row =>
               (forall k, In k ApiImages.pretty_keys ->
                          item row k = Raise (KeyError (IStr k))) /\
               (forall k, ~ In k ApiImages.pretty_keys -> item row k = item m k))
            (images self) rows.
Proof.
  intros Hreach Hne.
  assert (Hvalid : Forall valid_manifest (images self)) by now apply registry_invariant.
  unfold ApiImages.pretty. rewrite (_check_if_read_nonempty self Hne). simpl.
  eexists. split; [reflexivity|]. unfold ApiImages.deepcopy.
  clear Hne Hreach.
  induction Hvalid as [|m l Hm Hl IH]; cbn [map]; [constructor|].
  constructor; [|exact IH].
  destruct (valid_manifest_is_dict m Hm) as [items ->].
  unfold ApiImages.strip.
  destruct (strip_dict ApiImages.pretty_keys items) as (items' & -> & Hin & Hout & _).
  split; intros k Hk; unfold item; simpl.
  - now rewrite (Hin k Hk).
  - now rewrite (Hout k Hk).
Qed.

Lemma pretty_rows_witness :
  exists rows,
    ApiImages.pretty {| images := [vanilla; paper] |}
    = (Ok rows, {| images := [vanilla; paper] |}) /\
    Forall2 (fun m row =>
               (forall k, In k ApiImages.pretty_keys ->
                          item row k = Raise (KeyError (IStr k))) /\
               (forall k, ~ In k ApiImages.pretty_keys -> item row k = item m k))
            [vanilla; paper] rows.
Proof.
  apply (pretty_rows {| images := [vanilla; paper] |}).
  - change (reachable (snd (ApiImages.read_images two_manifests ApiImages.__init__))).
    apply reach_read_images, reach_init.
  - discriminate.
Defined.

Lemma strip_twice (strip_keys : list string) (d : json) :
  fold_left (fun d key => del_quiet key d) strip_keys
    (fold_left (fun d key => del_quiet key d) strip_keys d)
  = fold_left (fun d key => del_quiet key d) strip_keys d.
Proof.
  assert (Hnondict : forall keys d', (forall items, d' <> JDict items) ->
            fold_left (fun d key => del_quiet key d) keys d' = d').
  { induction keys as [|key keys IH]; intros d' Hd; simpl; [reflexivity|].
    destruct d'; simpl; try (apply IH; discriminate). now destruct (Hd items). }
  assert (Hfilter : forall keys items,
            fold_left (fun d key => del_quiet key d) keys (JDict items)
            = JDict (filter (fun kv => forallb (fun key => negb (String.eqb key (fst kv))) keys)
                            items)).
  { induction keys as [|key keys IH]; intros items; simpl.
    - f_equal. induction items as [|kv items IHi]; simpl; [reflexivity | now f_equal].
    - rewrite IH. f_equal. induction items as [|kv items IHi]; simpl; [reflexivity|].
      destruct (String.eqb key (fst kv)); simpl; [exact IHi|].
      destruct (forallb _ keys); simpl; now rewrite IHi. }
  assert (Hd : (exists items, d = JDict items) \/ forall items, d <> JDict items)
    by (destruct d; eauto; right; discriminate).
  destruct Hd as [[items ->] | Hd]; [|now rewrite !(Hnondict strip_keys d Hd)].
  rewrite !Hfilter. f_equal.
  induction items as [|kv items IH]; simpl; [reflexivity|].
  destruct (forallb _ strip_keys) eqn:E; simpl; [rewrite E; now f_equal | exact IH].
Qed.

(** X11. [pretty] of [images.py] strips the registry once: a second call
    returns the same rows and leaves the registry as the first call left
    it. *)
Theorem wilfred_pretty_twice (self : Images) :
  WilfredImages.pretty (snd (WilfredImages.pretty self)) = WilfredImages.pretty self.
Proof.
  unfold WilfredImages.pretty. simpl. rewrite map_map.
  assert (E : map (fun x => WilfredImages.strip WilfredImages.pretty_keys
                              (WilfredImages.strip WilfredImages.pretty_keys x))
                  (images self)
              = map (WilfredImages.strip WilfredImages.pretty_keys) (images self)).
  { apply map_ext. intros d. apply strip_twice. }
  now rewrite E.
Qed.

(** ** The class of [images.py] *)

Lemma wilfred_probe_Ok (file : string) (expr : result json) (key : string) (u : unit) :
  WilfredImages.probe file expr key = Ok u -> exists v, expr = Ok v.
Proof.
  unfold WilfredImages.probe, try_except, WilfredImages._exception, WilfredImages.error.
  destruct expr as [v|e]; simpl; [eauto|]. destruct (is_Exception e); discriminate.
Qed.

Lemma wilfred_probes_Ok (file : string) (expr : string -> result json) (keys : list string) :
  for_each keys (fun key => WilfredImages.probe file (expr key) key) = Ok tt ->
  Forall (fun key => exists v, expr key = Ok v) keys.
Proof.
  intros H. apply for_each_Ok in H.
  eapply Forall_impl; [|exact H]. intros key Hk. eapply wilfred_probe_Ok, Hk.
Qed.

Lemma wilfred_read_file_silent (f : entry) :
  WilfredImages.read_file true f = WilfredImages.read_file false f.
Proof.
  unfold WilfredImages.read_file, WilfredImages.check_version.
  destruct (fcontent f) as [|cause|image]; reflexivity.
Qed.

Lemma wilfred_read_loop_silent (files : list entry) (self : Images) :
  WilfredImages.read_loop true files self = WilfredImages.read_loop false files self.
Proof.
  revert self. induction files as [|f rest IH]; intros self; simpl; [reflexivity|].
  rewrite wilfred_read_file_silent.
  destruct (endswith (fname f) ".json"); [|apply IH].
  destruct (WilfredImages.read_file false f) as [[j|]|e]; auto.
Qed.

Lemma accepts_manifest (silent : bool) (f : entry) (j : json) :
  accepts silent f j -> fcontent f = Json j /\ accepted_manifest j.
Proof.
  unfold accepts, WilfredImages.read_file.
  destruct (fcontent f) as [|cause|image]; try discriminate.
  - unfold try_except, WilfredImages.error. destruct (is_Exception cause); discriminate.
  - intros H. apply bind_Ok in H. destruct H as (go_on & Hver & H).
    destruct go_on; [|discriminate H].
    apply bind_Ok in H. destruct H as ([] & Hverify & H). injection H as <-.
    split; [reflexivity|].
    unfold WilfredImages._verify in Hverify.
    apply bind_Ok in Hverify. destruct Hverify as ([] & Htop & Hverify).
    apply bind_Ok in Hverify. destruct Hverify as ([] & _ & Hinst).
    apply wilfred_probes_Ok in Htop. apply wilfred_probes_Ok in Hinst.
    split; [exact Htop|]. split; [|exact Hinst].
    unfold WilfredImages.check_version, try_except in Hver.
    destruct (item image "meta") as [meta|e]; simpl in *.
    + destruct (item meta "api_version") as [v|e]; simpl in *.
      * exists v. split; [reflexivity|].
        destruct (eq_int v WilfredImages.API_VERSION); [reflexivity|].
        destruct silent; discriminate Hver.
      * destruct (is_Exception e); [destruct silent|]; discriminate Hver.
    + destruct (is_Exception e); [destruct silent|]; discriminate Hver.
Qed.

Lemma wilfred_read_loop_spec (silent : bool) (files : list entry) :
  forall (self : Images) r self',
    WilfredImages.read_loop silent files self = (r, self') ->
    exists pre imgs,
      Forall2 (accepts silent) pre imgs /\
      images self' = (images self ++ imgs)%list /\
      ((r = Ok true /\ json_files files = pre) \/
       (exists f post, json_files files = (pre ++ f :: post)%list /\
          ((r = Ok false /\ WilfredImages.read_file silent f = Ok None) \/
           (exists e, r = Raise e /\ WilfredImages.read_file silent f = Raise e)))).
Proof.
  induction files as [|f rest IH]; intros self r self' H; simpl in H.
  - injection H as <- <-. exists [], []. split; [constructor|].
    split; [now rewrite app_nil_r | left; auto].
  - unfold json_files; simpl. fold (json_files rest).
    destruct (endswith (fname f) ".json"); [|apply IH, H].
    destruct (WilfredImages.read_file silent f) as [[j|]|e] eqn:E.
    + apply IH in H. destruct H as (pre & imgs & Hl & Hi & H).
      exists (f :: pre), (j :: imgs). split; [constructor; assumption|].
      split; [unfold append in Hi; simpl in Hi; now rewrite <- app_assoc in Hi|].
      destruct H as [(-> & ->) | (g & post & -> & H)]; [left; auto|].
      right. exists g, post. split; [reflexivity | exact H].
    + injection H as <- <-. exists [], []. split; [constructor|].
      split; [now rewrite app_nil_r|]. right. exists f, (json_files rest). auto.
    + injection H as <- <-. exists [], []. split; [constructor|].
      split; [now rewrite app_nil_r|]. right. exists f, (json_files rest). eauto.
Qed.

Lemma with_uid_filter (x : string) (l : list json) :
  Forall accepted_manifest l ->
  WilfredImages.with_uid x l = Ok (filter (has_uid x) l).
Proof.
  induction 1 as [|m l Hm Hl IH]; simpl; [reflexivity|].
  destruct Hm as (Htop & _).
  assert (Huid : exists u, item m "uid" = Ok u).
  { inversion_clear Htop as [|? ? _ Ht]. now inversion_clear Ht. }
  destruct Huid as [u Hu]. unfold has_uid. rewrite Hu, IH. reflexivity.
Qed.

Lemma hd_filter_find {A : Type} (p : A -> bool) (l : list A) :
  match filter p l with x :: _ => Some x | [] => None end = find p l.
Proof.
  induction l as [|a l IH]; simpl; [reflexivity|]. now destruct (p a).
Qed.

Lemma Forall2_accepts_manifests (silent : bool) (l : list entry) (imgs : list json) :
  Forall2 (accepts silent) l imgs -> Forall accepted_manifest imgs.
Proof.
  induction 1 as [|f j l imgs Hf Hl IH]; constructor; [|exact IH].
  now apply (accepts_manifest silent f j).
Qed.

(** X12. [get_image] of [images.py] reads the disk again on every call.
    When every [.json] file is accepted, its answer is the first manifest
    on the disk with the uid asked for, as it is in its file, or [None];
    the registry it was called with does not matter (so the keys that
    [pretty] has deleted are back), and the registry afterwards holds what
    the disk holds. *)
Theorem wilfred_get_image_reads_the_disk
  (fs : FS) (self : Images) (x : string) (imgs : list json) :
  Forall2 (accepts false) (json_files (walk fs)) imgs ->
  WilfredImages.get_image fs self x
  = (Ok (find (has_uid x) imgs), {| images := imgs |}).
Proof.
  intros Hl. unfold WilfredImages.get_image, WilfredImages._read_images.
  destruct (WilfredImages.read_loop false (walk fs) {| images := [] |}) as [r self'] eqn:E.
  apply wilfred_read_loop_spec in E.
  destruct E as (pre & imgs' & Hpre & Hi & H). simpl in Hi.
  destruct self' as [l]. simpl in Hi. subst l.
  destruct H as [(-> & Hj) | (f & post & Hj & H)].
  - rewrite Hj in Hl.
    assert (imgs' = imgs).
    { clear - Hpre Hl. revert imgs Hl.
      induction Hpre as [|f j pre imgs' Hf Hp IH]; intros imgs Hl; inversion Hl; subst;
        [reflexivity|].
      f_equal; [|now apply IH]. unfold accepts in *. congruence. }
    subst imgs'. simpl.
    rewrite (with_uid_filter x imgs (Forall2_accepts_manifests _ _ _ Hl)). simpl.
    now rewrite hd_filter_find.
  - exfalso. rewrite Hj in Hl.
    assert (Hf : exists j, accepts false f j).
    { clear - Hl. revert imgs Hl. induction pre as [|p pre IH]; intros imgs Hl;
        inversion Hl; subst; eauto. }
    destruct Hf as [j Hf]. unfold accepts in Hf.
    destruct H as [(_ & H) | (e & _ & H)]; congruence.
Qed.

Lemma wilfred_get_image_reads_the_disk_witness :
  WilfredImages.get_image
    (disk_with [mkEntry "vanilla.json" (Json vanilla0)])
    (snd (WilfredImages.pretty {| images := [vanilla0] |}))
    "default-vanilla-minecraft"
  = (Ok (find (has_uid "default-vanilla-minecraft") [vanilla0]), {| images := [vanilla0] |}).
Proof.
  apply (wilfred_get_image_reads_the_disk
           (disk_with [mkEntry "vanilla.json" (Json vanilla0)])
           (snd (WilfredImages.pretty {| images := [vanilla0] |}))
           "default-vanilla-minecraft" [vanilla0]).
  repeat constructor.
Defined.

(** X13. [get_image] of [images.py] drops the result of [_read_images]: when
    a pass stops at a manifest of another version, the lookup is made
    among the manifests of the files before it and nothing is raised, so a
    manifest in a later file is answered with [None]. *)
Theorem wilfred_get_image_after_a_mismatch
  (fs : FS) (self : Images) (x : string)
  (pre : list entry) (f : entry) (post : list entry) (imgs : list json) :
  json_files (walk fs) = (pre ++ f :: post)%list ->
  Forall2 (accepts false) pre imgs ->
  WilfredImages.read_file false f = Ok None ->
  WilfredImages.get_image fs self x
  = (Ok (find (has_uid x) imgs), {| images := imgs |}).
Proof.
  intros Hj Hl Hf. unfold WilfredImages.get_image, WilfredImages._read_images.
  rewrite (wilfred_read_loop_stops_at false (walk fs) _ pre f post imgs Hj Hl Hf). simpl.
  rewrite (with_uid_filter x imgs (Forall2_accepts_manifests _ _ _ Hl)). simpl.
  now rewrite hd_filter_find.
Qed.

Lemma wilfred_get_image_after_a_mismatch_witness :
  WilfredImages.get_image
    (disk_with [mkEntry "old.json" (Json vanilla1); mkEntry "vanilla.json" (Json vanilla0)])
    {| images := [] |} "default-vanilla-minecraft"
  = (Ok (find (has_uid "default-vanilla-minecraft") []), {| images := [] |}).
Proof.
  apply (wilfred_get_image_after_a_mismatch
           (disk_with [mkEntry "old.json" (Json vanilla1);
                       mkEntry "vanilla.json" (Json vanilla0)])
           {| images := [] |} "default-vanilla-minecraft"
           [] (mkEntry "old.json" (Json vanilla1))
           [mkEntry "vanilla.json" (Json vanilla0)] []).
  - reflexivity.
  - constructor.
  - reflexivity.
Defined.

Lemma download_steps_Ok (r : Remote) (fs fs' : FS) (u : unit) :
  download_steps r fs = (Ok u, fs') -> isdir_default fs' = true.
Proof.
  unfold download_steps.
  destruct (open_zip r), (response r), (write_zip r); simpl; try discriminate.
  destruct (archive r) as [|remains|[src|]]; simpl; try discriminate.
  destruct (move_images r), (remove_zip r), (rmtree_temp r); simpl; try discriminate.
  intros H. injection H as _ <-. reflexivity.
Qed.

Lemma download_default_Ok (w w' : World) (self self' : Images) (u : unit) :
  WilfredImages.download_default false w self = (Ok u, w', self') ->
  isdir_default (disk w') = true.
Proof.
  unfold WilfredImages.download_default.
  destruct (download_steps (net w (fetches w)) (disk w)) as [[[]|e] fs] eqn:E;
    intros H; [|discriminate H].
  injection H as _ <- _. simpl. exact (download_steps_Ok _ _ _ _ E).
Qed.

Lemma wilfred_pass_True (silent : bool) (fs : FS) (self self' : Images) :
  WilfredImages._read_images silent fs self = (Ok true, self') ->
  Forall2 (accepts false) (json_files (walk fs)) (images self') /\
  Forall accepted_manifest (images self').
Proof.
  unfold WilfredImages._read_images. intros H.
  assert (H' : WilfredImages.read_loop false (walk fs) {| images := [] |} = (Ok true, self'))
    by (destruct silent; [rewrite <- wilfred_read_loop_silent|]; exact H).
  apply wilfred_read_loop_spec in H'.
  destruct H' as (pre & imgs & Hl & Hi & [(_ & Hj) | (f & post & _ & [(C & _) | (e & C & _)])]);
    try discriminate C.
  simpl in Hi. rewrite Hi, Hj. split; [exact Hl|].
  exact (Forall2_accepts_manifests _ _ _ Hl).
Qed.

(** X14. When the constructor of [images.py] returns, the [default]
    subtree exists and the registry holds one manifest per [.json] file
    that is then on the disk, the value parsed from it, in walk order;
    each has the eleven top-level keys of this class, the three
    [installation] keys and a [meta.api_version] equal to 0. *)
Theorem wilfred_init_registers_the_disk (w : World) :
  let '(r, w', self) := WilfredImages.__init__ w in
  r = Ok tt ->
  isdir_default (disk w') = true /\
  Forall2 (accepts false) (json_files (walk (disk w'))) (images self) /\
  Forall accepted_manifest (images self).
Proof.
  unfold WilfredImages.__init__.
  destruct (isdir_default (disk w)) eqn:Hdir; simpl.
  - destruct (WilfredImages._read_images false (disk w) {| images := [] |})
      as [[[|]|e] self1] eqn:E1.
    + intros _. split; [exact Hdir|]. exact (wilfred_pass_True _ _ _ _ E1).
    + destruct (WilfredImages.download_default false w self1) as [[[u|e] w2] self2] eqn:E2;
        [|discriminate].
      destruct (WilfredImages._read_images true (disk w2) self2)
        as [[[|]|e] self3] eqn:E3; try discriminate.
      intros _. split; [exact (download_default_Ok _ _ _ _ _ E2)|].
      exact (wilfred_pass_True _ _ _ _ E3).
    + discriminate.
  - destruct (WilfredImages.download_default false w {| images := [] |})
      as [[[u|e] w1] self0] eqn:E0; [|discriminate].
    pose proof (download_default_Ok _ _ _ _ _ E0) as Hd1.
    destruct (WilfredImages._read_images false (disk w1) self0)
      as [[[|]|e] self1] eqn:E1.
    + intros _. split; [exact Hd1|]. exact (wilfred_pass_True _ _ _ _ E1).
    + destruct (WilfredImages.download_default false w1 self1) as [[[u2|e] w2] self2] eqn:E2;
        [|discriminate].
      destruct (WilfredImages._read_images true (disk w2) self2)
        as [[[|]|e] self3] eqn:E3; try discriminate.
      intros _. split; [exact (download_default_Ok _ _ _ _ _ E2)|].
      exact (wilfred_pass_True _ _ _ _ E3).
    + discriminate.
Qed.

Lemma wilfred_init_registers_the_disk_witness :
  let '(r, w', self) :=
    WilfredImages.__init__
      (world fresh_install (fun _ => serving [mkEntry "vanilla.json" (Json vanilla0)])) in
  r = Ok tt ->
  isdir_default (disk w') = true /\
  Forall2 (accepts false) (json_files (walk (disk w'))) (images self) /\
  Forall accepted_manifest (images self).
Proof.
  exact (wilfred_init_registers_the_disk
           (world fresh_install (fun _ => serving [mkEntry "vanilla.json" (Json vanilla0)]))).
Defined.

(** ** Download and load together *)

Lemma read_loop_never_ImagesNotPresent {L : StrLower} (files : list entry) (self self' : Images)
  (msg : string) :
  ApiImages.read_loop files self <> (Raise (ImagesNotPresent msg), self').
Proof.
  intros H. apply read_loop_spec in H.
  destruct H as [(H & _) | (e & pre & f & post & imgs & He & _ & _ & Hf & _)];
    [discriminate H|].
  injection He as <-. apply read_file_Raise in Hf.
  destruct Hf as [H | [(? & ? & H) | [(? & H) | [(? & H) | [H | [H | H]]]]]];
    discriminate H.
Qed.

(** X15. After a [download] that returns, [check_if_present] holds, one
    more download has been counted, and a [read_images] on that disk does
    not raise [ImagesNotPresent]. *)
Theorem download_makes_images_present {L : StrLower} (w w' : World) (u : unit) :
  ApiImages.download w = (Ok u, w') ->
  ApiImages.check_if_present (disk w') = true /\
  fetches w' = S (fetches w) /\
  forall self msg,
    fst (ApiImages.read_images (disk w') self) <> Raise (ImagesNotPresent msg).
Proof.
  unfold ApiImages.download.
  destruct (download_steps (net w (fetches w)) (disk w)) as [r fs] eqn:E.
  intros H. injection H as -> <-. simpl.
  pose proof (download_steps_Ok _ _ _ _ E) as Hdir.
  unfold ApiImages.read_images, ApiImages.check_if_present. rewrite Hdir. simpl.
  repeat split. intros self msg H.
  destruct (ApiImages.read_loop (walk fs) {| images := [] |}) as [r self'] eqn:El.
  simpl in H. subst r. exact (read_loop_never_ImagesNotPresent _ _ _ _ El).
Qed.

Lemma download_makes_images_present_witness :
  let w := world fresh_install (fun _ => serving [mkEntry "vanilla.json" (Json vanilla)]) in
  ApiImages.check_if_present (disk (snd (ApiImages.download w))) = true /\
  fetches (snd (ApiImages.download w)) = S (fetches w) /\
  forall self msg,
    fst (ApiImages.read_images (disk (snd (ApiImages.download w))) self)
    <> Raise (ImagesNotPresent msg).
Proof.
  intros w.
  apply (download_makes_images_present w (snd (ApiImages.download w)) tt).
  reflexivity.
Defined.

(** X16. The download removes before it fetches: when the old [default]
    subtree can be removed and the call then fails at the network or at
    the archive, [default] is gone, and the next [read_images] raises
    [ImagesNotPresent] and leaves the registry as it is. *)
Theorem failed_download_leaves_no_images {L : StrLower} (w w' : World) (e : exn) (self : Images) :
  rmtree_default (net w (fetches w)) = None ->
  ApiImages.download w = (Raise e, w') ->
  e = ConnectionError \/ e = BadZipFile ->
  ApiImages.read_images (disk w') self
  = (Raise (ImagesNotPresent "Default images not present"), self).
Proof.
  unfold ApiImages.download, download_steps. intros Hrm.
  assert (Hgone : rmtree_ignore_errors (net w (fetches w)) (default (disk w)) = None)
    by (unfold rmtree_ignore_errors; rewrite Hrm; now destruct (default (disk w))).
  rewrite Hgone.
  destruct (open_zip _), (response _), (write_zip _); simpl;
    try (intros H; injection H as <- <-; intros [C|C]; try discriminate C; reflexivity).
  destruct (archive _) as [|remains|[src|]]; simpl;
    try (intros H; injection H as <- <-; intros [C|C]; try discriminate C; reflexivity).
  destruct (move_images _), (remove_zip _), (rmtree_temp _); simpl;
    intros H; try discriminate H; injection H as <- <-; intros [C|C]; discriminate C.
Qed.

Lemma failed_download_leaves_no_images_witness :
  ApiImages.read_images
    (disk (snd (ApiImages.download (world one_manifest (fun _ => offline)))))
    {| images := [vanilla] |}
  = (Raise (ImagesNotPresent "Default images not present"), {| images := [vanilla] |}).
Proof.
  apply (failed_download_leaves_no_images
           (world one_manifest (fun _ => offline))
           (snd (ApiImages.download (world one_manifest (fun _ => offline))))
           ConnectionError {| images := [vanilla] |}).
  - reflexivity.
  - reflexivity.
  - left. reflexivity.
Defined.

(** X17. Whatever happens during a download, the files of [image_dir]
    outside the [default] subtree are as they were. *)
Theorem download_keeps_the_other_subtrees (r : Remote) (fs : FS) :
  before_default (snd (download_steps r fs)) = before_default fs /\
  after_default (snd (download_steps r fs)) = after_default fs.
Proof.
  unfold download_steps.
  destruct (open_zip r), (response r), (write_zip r); simpl; auto.
  destruct (archive r) as [|remains|[src|]]; simpl; auto.
  destruct (move_images r), (remove_zip r), (rmtree_temp r); simpl; auto.
Qed.

(** ** The configuration file *)

(** X18. What [write] writes, [_read] accepts: after [write(data_path)]
    a [_read] returns without exit and holds a configuration whose
    [data_path] is the string that was written.  [write] itself does not
    assign [self.configuration]. *)
Theorem config_write_then_read
  (data_path : string) (file : option file_content) (self : ConfigParser.Config) :
  let '(r, file', self') := ConfigParser.write true data_path file self in
  r = Ok tt /\ self' = self /\
  ConfigParser._read file' self'
  = (Ok tt, {| ConfigParser.configuration := ConfigParser.written data_path |}) /\
  item (ConfigParser.written data_path) "data_path" = Ok (JStr data_path).
Proof.
  simpl. repeat split.
Qed.

(** X19. [_read] returns in two cases only: there is no configuration
    file, and the configuration is [None]; or the file parses to a value
    whose [meta.version] equals [API_VERSION], and the configuration is
    that value.  A file of another version ends the process with exit
    code 1. *)
Theorem config_read_accepts_the_current_version_only :
  (forall file self self' u,
      ConfigParser._read file self = (Ok u, self') ->
      (file = None /\ ConfigParser.configuration self' = JNull) \/
      (exists j v,
          file = Some (Json j) /\ ConfigParser.configuration self' = j /\
          (m <- item j "meta" ;; item m "version") = Ok v /\
          eq_int v ConfigParser.API_VERSION = true)) /\
  (forall j v self,
      (m <- item j "meta" ;; item m "version") = Ok v ->
      eq_int v ConfigParser.API_VERSION = false ->
      ConfigParser._read (Some (Json j)) self
      = (Raise (SystemExit 1), {| ConfigParser.configuration := j |})).
Proof.
  split.
  - intros file self self' u. unfold ConfigParser._read.
    destruct file as [[|cause|j]|]; try discriminate.
    + simpl. intros H. injection H as H <-. right.
      apply bind_Ok in H. destruct H as (m & Hm & H).
      apply bind_Ok in H. destruct H as (v & Hv & H).
      exists j, v. repeat split.
      * rewrite Hm. exact Hv.
      * destruct (eq_int v ConfigParser.API_VERSION); [reflexivity | discriminate H].
    + intros H. injection H as _ <-. left. auto.
  - intros j v self Hv Hne. unfold ConfigParser._read. simpl.
    apply bind_Ok in Hv. destruct Hv as (m & Hm & Hv).
    rewrite Hm. simpl. rewrite Hv. simpl. now rewrite Hne.
Qed.

Lemma config_read_accepts_the_current_version_only_witness :
  ((@None file_content = None /\
    ConfigParser.configuration {| ConfigParser.configuration := JNull |} = JNull) \/
   (exists j v,
       @None file_content = Some (Json j) /\
       ConfigParser.configuration {| ConfigParser.configuration := JNull |} = j /\
       (m <- item j "meta" ;; item m "version") = Ok v /\
       eq_int v ConfigParser.API_VERSION = true)) /\
  ConfigParser._read
    (Some (Json (JDict [("meta", JDict [("version", JInt 1)])])))
    {| ConfigParser.configuration := JNull |}
  = (Raise (SystemExit 1),
     {| ConfigParser.configuration := JDict [("meta", JDict [("version", JInt 1)])] |}).
Proof.
  destruct config_read_accepts_the_current_version_only as [Hok Hexit].
  split.
  - apply (Hok None {| ConfigParser.configuration := JDict [] |}
             {| ConfigParser.configuration := JNull |} tt).
    reflexivity.
  - apply (Hexit (JDict [("meta", JDict [("version", JInt 1)])]) (JInt 1)); reflexivity.
Defined.

(** ** The command [create] *)

Lemma Forall2_accepts_In (silent : bool) (l : list entry) (imgs : list json) (m : json) :
  Forall2 (accepts silent) l imgs -> In m imgs ->
  exists f, In f l /\ fcontent f = Json m /\ accepted_manifest m.
Proof.
  induction 1 as [|g j l imgs Hg Hl IH]; simpl; [tauto|].
  intros [<- | Hin].
  - destruct (accepts_manifest _ _ _ Hg) as [Hc Hacc]. exists g. auto.
  - destruct (IH Hin) as (f & Hf & H). exists f. auto.
Qed.

Lemma with_uid_Ok (x : string) (l found : list json) :
  WilfredImages.with_uid x l = Ok found -> found = filter (has_uid x) l.
Proof.
  revert found. induction l as [|m l IH]; simpl; intros found H.
  - now injection H as <-.
  - apply bind_Ok in H. destruct H as (u & Hu & H).
    apply bind_Ok in H. destruct H as (rest & Hrest & H).
    injection H as <-. unfold has_uid. rewrite Hu, (IH rest Hrest). reflexivity.
Qed.

Lemma contains_space_parts (s : string) :
  contains " " s = false ->
  forall a b, s <> (a ++ " " ++ b)%string.
Proof.
  induction s as [|c s IH]; intros Hs a b H.
  - destruct a; discriminate H.
  - cbn [contains] in Hs. apply orb_false_elim in Hs. destruct Hs as [Hp Hs].
    destruct a as [|c' a]; simpl in H; injection H as -> H.
    + assert (Ht : String.prefix " " (String " " s) = true) by (destruct s; reflexivity).
      congruence.
    + exact (IH Hs a b H).
Qed.

(** X20. [create] reaches [servers.create] only when the tool is
    configured, and then with the typed name in lowercase, a name and an
    image uid that hold no space, the port and memory as typed, and an
    image uid that is the [uid] of a manifest which is in a [.json] file
    of the disk at that moment and has passed [_verify]. *)
Theorem create_calls_servers_for_an_existing_image {L : StrLower}
  (config : ConfigParser.Config) (fs : FS) (registry registry' : Images)
  (a : Wilfred.Answers) (c : Wilfred.Creation) :
  Wilfred.create config fs registry a = (Ok c, registry') ->
  truthy (ConfigParser.configuration config) = true /\
  Wilfred.created_name c = lower (Wilfred.answer_name a) /\
  Wilfred.created_image_uuid c = Wilfred.answer_image_uuid a /\
  Wilfred.created_port c = Wilfred.answer_port a /\
  Wilfred.created_memory c = Wilfred.answer_memory a /\
  (forall x y, Wilfred.created_name c <> (x ++ " " ++ y)%string) /\
  (forall x y, Wilfred.created_image_uuid c <> (x ++ " " ++ y)%string) /\
  exists f m,
    In f (json_files (walk fs)) /\ fcontent f = Json m /\
    accepted_manifest m /\ In m (images registry') /\
    item m "uid" = Ok (JStr (Wilfred.created_image_uuid c)).
Proof.
  unfold Wilfred.create.
  destruct (truthy (ConfigParser.configuration config)) eqn:Hcfg; simpl; [|discriminate].
  destruct (contains " " (lower (Wilfred.answer_name a))) eqn:Hname; simpl; [discriminate|].
  destruct (contains " " (Wilfred.answer_image_uuid a)) eqn:Huuid; simpl; [discriminate|].
  unfold WilfredImages.get_image, WilfredImages._read_images.
  destruct (WilfredImages.read_loop false (walk fs) {| images := [] |}) as [r self1] eqn:E.
  destruct r as [b|e]; [|discriminate].
  destruct (WilfredImages.with_uid (Wilfred.answer_image_uuid a) (images self1))
    as [found|e] eqn:Ew; simpl; [|discriminate].
  apply with_uid_Ok in Ew.
  destruct found as [|m rest]; simpl; [discriminate|].
  destruct (truthy m); simpl; [|discriminate].
  intros H. injection H as <- <-. simpl.
  repeat split; try reflexivity.
  - now apply contains_space_parts.
  - now apply contains_space_parts.
  - assert (Hin : In m (filter (has_uid (Wilfred.answer_image_uuid a)) (images self1)))
      by (rewrite <- Ew; now left).
    apply filter_In in Hin. destruct Hin as [Hin Hu]. apply has_uid_true in Hu.
    apply wilfred_read_loop_spec in E.
    destruct E as (pre & imgs & Hl & Hi & Hj). simpl in Hi. rewrite Hi in Hin.
    destruct (Forall2_accepts_In _ _ _ m Hl Hin) as (f & Hf & Hc & Hacc).
    exists f, m. split; [|split; [exact Hc | split; [exact Hacc | split]]].
    + destruct Hj as [(_ & ->) | (g0 & post & -> & _)]; [exact Hf|].
      apply in_or_app. now left.
    + rewrite Hi. exact Hin.
    + exact Hu.
Qed.

Lemma create_calls_servers_for_an_existing_image_witness :
  let a := {| Wilfred.answer_name := "My-Server";
              Wilfred.answer_image_uuid := "default-vanilla-minecraft";
              Wilfred.answer_port := 25565; Wilfred.answer_memory := 1024 |} in
  let c := {| Wilfred.created_name := "my-server";
              Wilfred.created_image_uuid := "default-vanilla-minecraft";
              Wilfred.created_memory := 1024; Wilfred.created_port := 25565 |} in
  truthy (ConfigParser.written "/srv/wilfred/servers") = true /\
  Wilfred.created_name c = lower (Wilfred.answer_name a) /\
  exists f m,
    In f (json_files (walk (disk_with [mkEntry "vanilla.json" (Json vanilla0)]))) /\
    fcontent f = Json m /\ accepted_manifest m /\ In m [vanilla0] /\
    item m "uid" = Ok (JStr (Wilfred.created_image_uuid c)).
Proof.
  intros a c.
  assert (E : Wilfred.create
                {| ConfigParser.configuration := ConfigParser.written "/srv/wilfred/servers" |}
                (disk_with [mkEntry "vanilla.json" (Json vanilla0)])
                {| images := [] |} a
              = (Ok c, {| images := [vanilla0] |})) by (vm_compute; reflexivity).
  destruct (create_calls_servers_for_an_existing_image
              {| ConfigParser.configuration := ConfigParser.written "/srv/wilfred/servers" |}
              (disk_with [mkEntry "vanilla.json" (Json vanilla0)])
              {| images := [] |} {| images := [vanilla0] |} a c E)
    as (H1 & H2 & _ & _ & _ & _ & _ & H3).
  split; [exact H1 | split; [exact H2 | exact H3]].
Defined.

(** ** More on the two loaders *)

Lemma wilfred_probes_Raise (file : string) (expr : string -> result json)
  (keys : list string) (e : exn) :
  (forall key e', expr key = Raise e' -> is_Exception e' = true) ->
  for_each keys (fun key => WilfredImages.probe file (expr key) key) = Raise e ->
  e = SystemExit 1.
Proof.
  intros Hexc H. apply for_each_Raise in H. destruct H as (_ & k & _ & _ & _ & H).
  unfold WilfredImages.probe, try_except, WilfredImages._exception, WilfredImages.error in H.
  destruct (expr k) as [v|e'] eqn:E; simpl in H; [discriminate|].
  rewrite (Hexc k e' E) in H. now injection H as <-.
Qed.

(** X21. A pass of [images.py] over one [.json] file has four outcomes: the
    manifest is appended; the pass returns [False] (version differs or
    cannot be looked up); the process ends with exit code 1 (the file does
    not parse, or a key that [_verify] wants is missing); or [open] raises
    [OSError].  No exception of a lookup leaves it. *)
Theorem wilfred_pass_outcomes (silent : bool) (f : entry) (e : exn) :
  WilfredImages.read_file silent f = Raise e ->
  (e = OSError /\ fcontent f = Unreadable) \/
  e = SystemExit 1 \/
  (fcontent f = NotJson e /\ is_Exception e = false).
Proof.
  unfold WilfredImages.read_file.
  destruct (fcontent f) as [|cause|image].
  - intros H. injection H as <-. auto.
  - unfold try_except, WilfredImages.error.
    destruct (is_Exception cause) eqn:E; simpl; intros H; injection H as <-; auto.
  - intros H. right. left.
    apply bind_Raise in H. destruct H as [H | (go_on & _ & H)].
    + unfold WilfredImages.check_version, try_except in H.
      destruct (item image "meta") as [meta|e0] eqn:Em; simpl in H.
      * destruct (item meta "api_version") as [v|e1] eqn:Ev; simpl in H.
        -- destruct (eq_int v WilfredImages.API_VERSION), silent; discriminate H.
        -- rewrite (item_raises_Exception _ _ _ Ev) in H. destruct silent; discriminate H.
      * rewrite (item_raises_Exception _ _ _ Em) in H. destruct silent; discriminate H.
    + destruct go_on; [|discriminate H].
      apply bind_Raise in H. destruct H as [H | (u & _ & H)]; [|discriminate H].
      unfold WilfredImages._verify in H.
      apply bind_Raise in H. destruct H as [H | (u1 & _ & H)].
      { apply wilfred_probes_Raise in H; [exact H|].
        intros key. apply item_raises_Exception. }
      apply bind_Raise in H. destruct H as [H | (u2 & _ & H)];
        (apply wilfred_probes_Raise in H; [exact H|]);
        intros key e'; (apply bind_raises_Exception; [|intros ?]);
        apply item_raises_Exception.
Qed.

Lemma wilfred_pass_outcomes_witness :
  (SystemExit 1 = OSError /\
   fcontent (mkEntry "broken.json" (Json (old_no_author 0))) = Unreadable) \/
  SystemExit 1 = SystemExit 1 \/
  (fcontent (mkEntry "broken.json" (Json (old_no_author 0))) = NotJson (SystemExit 1) /\
   is_Exception (SystemExit 1) = false).
Proof.
  apply (wilfred_pass_outcomes false (mkEntry "broken.json" (Json (old_no_author 0)))).
  reflexivity.
Defined.

Lemma read_loop_all_load {L : StrLower} (files : list entry) :
  forall self imgs,
    Forall2 loads (json_files files) imgs ->
    ApiImages.read_loop files self
      = (Ok true, {| images := (images self ++ imgs)%list |}).
Proof.
  induction files as [|f rest IH]; intros self imgs Hl.
  - inversion Hl. simpl. rewrite app_nil_r. now destruct self.
  - unfold json_files in Hl. simpl in Hl |- *. fold (json_files rest) in Hl.
    destruct (endswith (fname f) ".json"); [|now apply IH].
    inversion Hl as [|? j ? imgs' Hf Hrest]; subst.
    unfold loads in Hf. rewrite Hf. rewrite (IH (append self j) imgs' Hrest).
    unfold append; simpl. now rewrite <- app_assoc.
Qed.

(** X22. A load succeeds when every discovered [.json] file passes: it
    returns [True] and the registry, whatever it held, becomes the list of
    their manifests in walk order. *)
Theorem load_succeeds_when_every_file_loads {L : StrLower} (fs : FS) (self : Images) (imgs : list json) :
  isdir_default fs = true ->
  Forall2 loads (json_files (walk fs)) imgs ->
  ApiImages.read_images fs self = (Ok true, {| images := imgs |}).
Proof.
  intros Hdir Hl. unfold ApiImages.read_images, ApiImages.check_if_present.
  rewrite Hdir. simpl. exact (read_loop_all_load (walk fs) {| images := [] |} imgs Hl).
Qed.

Lemma load_succeeds_when_every_file_loads_witness :
  ApiImages.read_images two_manifests {| images := [no_author] |}
  = (Ok true, {| images := [vanilla; paper] |}).
Proof.
  apply (load_succeeds_when_every_file_loads two_manifests
           {| images := [no_author] |} [vanilla; paper]).
  - reflexivity.
  - repeat constructor.
Defined.

Lemma guarded_loop_all_Ok (n : nat) (body : nat -> result unit) :
  (forall i, (i < n)%nat -> body i = Ok tt) ->
  (if (0 <? n)%nat then for_each (seq 0 n) body else Ok tt) = Ok tt.
Proof.
  intros H. destruct (0 <? n)%nat; [|reflexivity].
  apply for_each_all_Ok. apply Forall_forall. intros i Hi.
  apply in_seq in Hi. apply H. lia.
Qed.

(** X23. The converse of X1: a record that has the twelve top-level keys,
    a lowercase string as [uid], [meta.api_version], the three
    [installation] keys, [config.files] and [variables] with a length, and
    the nested keys in every entry of both, is accepted: [_verify] returns
    [True]. *)
Theorem verify_accepts_complete_manifests {L : StrLower}
  (image : json) (file : string) (s : string) (files vars : json) (n k : nat) :
  Forall (fun key => exists v, item image key = Ok v) ApiImages.top_level_keys ->
  item image "uid" = Ok (JStr s) -> s = lower s ->
  (exists v, (m <- item image "meta" ;; item m "api_version") = Ok v) ->
  Forall (fun key => exists v, (m <- item image "installation" ;; item m key) = Ok v)
         ApiImages.installation_keys ->
  ApiImages.config_files image = Ok files -> len files = Ok n ->
  (forall i, (i < n)%nat ->
     Forall (fun key => exists v,
               (f <- ApiImages.config_file image i ;; item f key) = Ok v)
            ApiImages.file_keys /\
     exists env m,
       ApiImages.file_environment image i = Ok env /\ len env = Ok m /\
       forall x, (x < m)%nat ->
         Forall (fun key => exists v,
                   (e <- ApiImages.file_environment image i ;;
                    mp <- subscript e (IInt x) ;; item mp key) = Ok v)
                ApiImages.environment_keys) ->
  item image "variables" = Ok vars -> len vars = Ok k ->
  (forall i, (i < k)%nat ->
     Forall (fun key => exists v,
               (v0 <- ApiImages.variable image i ;; item v0 key) = Ok v)
            ApiImages.variable_keys) ->
  ApiImages._verify image file = Ok true.
Proof.
  intros Htop Huid Hlow Hmeta Hinst Hfiles Hn Hentries Hvars Hk Hventries.
  unfold ApiImages._verify.
  rewrite (probes_all_Ok file (item image) _ Htop). cbn [bind].
  unfold ApiImages.check_uid. rewrite Huid. cbn [bind].
  rewrite <- Hlow, String.eqb_refl. cbn [negb bind].
  rewrite (probes_all_Ok file (fun key => m <- item image "meta";; item m key)
             ApiImages.meta_keys) by (constructor; [exact Hmeta | constructor]).
  cbn [bind].
  rewrite (probes_all_Ok file (fun key => m <- item image "installation";; item m key)
             _ Hinst).
  cbn [bind]. unfold ApiImages.probe at 1. rewrite Hfiles. cbn [bind try_except].
  rewrite Hn. cbn [bind].
  rewrite guarded_loop_all_Ok.
  - cbn [bind]. rewrite Hvars. cbn [bind]. rewrite Hk. cbn [bind].
    rewrite guarded_loop_all_Ok; [reflexivity|].
    intros i Hi. apply probes_all_Ok, Hventries, Hi.
  - intros i Hi. destruct (Hentries i Hi) as (Hkeys & env & m & Henv & Hm & Hmaps).
    unfold ApiImages.check_file.
    rewrite (probes_all_Ok file (fun key => f <- ApiImages.config_file image i;; item f key)
               _ Hkeys).
    cbn [bind]. rewrite Henv. cbn [bind]. rewrite Hm. cbn [bind].
    apply for_each_all_Ok. apply Forall_forall. intros x Hx. apply in_seq in Hx.
    apply for_each_all_Ok.
    assert (Hx' : (x < m)%nat) by lia.
    eapply Forall_impl; [|exact (Hmaps x Hx')].
    intros key [v Hv]. rewrite Henv in Hv. cbn [bind] in Hv.
    unfold try_except. cbn [bind].
    destruct (subscript env (IInt x)) as [mp|e]; cbn [bind] in *; [|discriminate Hv].
    now rewrite Hv.
Qed.

Lemma verify_accepts_complete_manifests_witness :
  ApiImages._verify vanilla "vanilla.json" = Ok true.
Proof.
  apply (verify_accepts_complete_manifests
           vanilla "vanilla.json" "default-vanilla-minecraft"
           (JList [sample_config_file]) (JList [sample_variable]) 1 1).
  - repeat constructor; eexists; reflexivity.
  - reflexivity.
  - reflexivity.
  - eexists; reflexivity.
  - repeat constructor; eexists; reflexivity.
  - reflexivity.
  - reflexivity.
  - intros i Hi. assert (i = 0%nat) by lia. subst i. split.
    + repeat constructor; eexists; reflexivity.
    + exists (JList [sample_mapping]), 1%nat. split; [reflexivity|]. split; [reflexivity|].
      intros x Hx. assert (x = 0%nat) by lia. subst x.
      repeat constructor; eexists; reflexivity.
  - reflexivity.
  - reflexivity.
  - intros i Hi. assert (i = 0%nat) by lia. subst i.
    repeat constructor; eexists; reflexivity.
Defined.
